(** * connectrum.client: the StratumClient request/response engine

    A shallow embedding of [src/connectrum/client.py].  The client object and
    the asyncio objects it talks to (futures, queues, protocols, tasks, the
    logger) live in one [World]; every method of [StratumClient] is a
    computation in a state-and-exception monad over that world.  A Python
    exception does not roll the state back, so a raising computation still
    returns the world it reached.

    Conventions of the model:
    - Python assertions are enabled (the interpreter is not run with -O).
    - Decoded JSON numbers are integers; JSON floats are left out.
    - [connect] is followed through its awaits without interleaving other
      tasks; the network's answer is the [net] argument.
    - The body of [_keepalive] is a task of the event loop and is not run
      here; creating and cancelling the task are recorded. *)

From Stdlib Require Import ZArith Ascii.
From stdpp Require Import gmap strings list fin_maps sorting.
Local Open Scope Z_scope.
Set Warnings "-register-all".

(** ** Python values that cross the client's interface *)

(** Identity of a heap object (a protocol, future, queue or task). *)
Abbreviation ref := nat (only parsing).

(** A value produced by [json.loads]. *)
Inductive json :=
| JNull
| JBool (b : bool)
| JInt (z : Z)
| JStr (s : string)
| JArr (items : list json)
| JObj (fields : list (string * json)).

(** Python truth value of a decoded JSON value ([if not method]). *)
Definition truthy (v : json) : bool :=
  match v with
  | JNull => false
  | JBool b => b
  | JInt z => negb (z =? 0)
  | JStr s => negb (String.eqb s "")
  | JArr items => match items with [] => false | _ => true end
  | JObj fields => match fields with [] => false | _ => true end
  end.

(** [x is None] *)
Definition is_None (v : json) : bool :=
  match v with JNull => true | _ => false end.

(** An inbound message: the dict the protocol hands to [_got_response]. *)
Abbreviation message := (gmap string json) (only parsing).

(** [msg.get(key, None)] and [msg.get(key)] *)
Definition msg_get (msg : message) (key : string) : json :=
  default JNull (msg !! key).

(** The dict built at line 134: [{'id': req_id, 'method': method, 'params': params}] *)
Record Request := mkRequest {
  req_id : Z;
  req_method : string;
  req_params : list json
}.

(** ['.' in method] *)
Fixpoint str_contains (c : Ascii.ascii) (s : string) : bool :=
  match s with
  | EmptyString => false
  | String a rest => Ascii.eqb a c || str_contains c rest
  end.

(** [method.endswith(suffix)] *)
Definition str_endswith (s suffix : string) : bool :=
  let n := String.length s in
  let k := String.length suffix in
  (k <=? n)%nat && String.eqb (String.substring (n - k) k s) suffix.

(** ** Exceptions and outcomes *)

Inductive exn :=
| AssertionError (detail : string)
| NotImplementedError (detail : string)
| AttributeError (detail : string)
| TypeError (detail : string)
| KeyError (key : json)
| InvalidStateError
| OSError
| ElectrumErrorResponse (response : json) (request : Request).

Inductive Outcome (A : Type) :=
| Ok (a : A)
| Raise (e : exn).
Arguments Ok {A} a.
Arguments Raise {A} e.

(** ** Collaborators outside [client.py] *)

(** What [svr_info.ServerInfo] offers to [connect]:
    [get_port(proto_code)] answers [(hostname, port, use_ssl)] or raises. *)
Record ServerInfo := mkServerInfo {
  get_port : string -> Outcome (string * Z * bool)
}.

(** [aiosocks.Socks5Addr(host, port)] *)
Record Socks5Addr := mkSocks5Addr {
  socks_host : string;
  socks_port : Z
}.

(** The [use_tor] argument: [False], [True], or a [(host, port)] pair. *)
Inductive UseTor :=
| TorFalse
| TorTrue
| TorAddr (host : string) (port : Z).

(** The [ssl=] argument given to [create_connection]: [False], [True]
    (the default verifying context), or the context built at lines 88-90
    with [check_hostname = False] and [verify_mode = CERT_NONE]. *)
Inductive Tls :=
| TlsOff
| TlsVerify
| TlsNoVerify.

(** One call of [aiosocks.create_connection] (with [dial_proxy]) or of
    [loop.create_connection] (without). *)
Record Dial := mkDial {
  dial_proxy : option Socks5Addr;
  dial_host : string;
  dial_port : Z;
  dial_ssl : Tls
}.

Inductive level := DEBUG | INFO | WARNING | ERROR.

Inductive log_arg :=
| LogNothing
| LogJson (v : json)
| LogMsg (m : message)
| LogServer.

(** Calls into collaborators, in the order the client makes them. *)
Inductive event :=
| EvSend (p : ref) (msg : Request)        (* protocol.send_data(msg) *)
| EvClose (p : ref)                       (* protocol.close() *)
| EvCancel (t : ref)                      (* ka_task.cancel() *)
| EvPut (q : ref) (item : json)           (* loop.create_task(q.put(item)) *)
| EvDial (d : Dial)                       (* create_connection(...) *)
| EvAttach (p : ref)                      (* protocol.client = self *)
| EvKeepalive (t : ref)                   (* loop.create_task(self._keepalive()) *)
| EvLog (lvl : level) (text : string) (arg : log_arg).

(** State of an [asyncio.Future]. *)
Inductive fut_state :=
| Pending
| Fulfilled (v : json)
| Failed (e : exn)
| Cancelled.

(** ** The client object and its world *)

(** Attributes of a [StratumClient].  [server_info] and [proto_code] do not
    exist before the first [connect]. *)
Record Client := mkClient {
  protocol : option ref;
  next_id : Z;
  inflight : gmap Z (Request * ref);
  subscriptions : gmap string (list ref);
  ka_task : option ref;
  server_info : option ServerInfo;
  proto_code : option string
}.

Record World := mkWorld {
  self : Client;
  futures : gmap ref fut_state;
  fresh : ref;
  trace : list event
}.

(** [StratumClient.__init__] *)
Definition __init__ : Client :=
  {| protocol := None;
     next_id := 1;
     inflight := ∅;
     subscriptions := ∅;
     ka_task := None;
     server_info := None;
     proto_code := None |}.

Definition init_world : World :=
  {| self := __init__; futures := ∅; fresh := 0%nat; trace := [] |}.

Definition with_self (f : Client -> Client) (w : World) : World :=
  {| self := f (self w); futures := futures w; fresh := fresh w; trace := trace w |}.

Definition set_protocol (v : option ref) (c : Client) : Client :=
  {| protocol := v; next_id := next_id c; inflight := inflight c;
     subscriptions := subscriptions c; ka_task := ka_task c;
     server_info := server_info c; proto_code := proto_code c |}.

Definition set_next_id (v : Z) (c : Client) : Client :=
  {| protocol := protocol c; next_id := v; inflight := inflight c;
     subscriptions := subscriptions c; ka_task := ka_task c;
     server_info := server_info c; proto_code := proto_code c |}.

Definition set_inflight (v : gmap Z (Request * ref)) (c : Client) : Client :=
  {| protocol := protocol c; next_id := next_id c; inflight := v;
     subscriptions := subscriptions c; ka_task := ka_task c;
     server_info := server_info c; proto_code := proto_code c |}.

Definition set_subscriptions (v : gmap string (list ref)) (c : Client) : Client :=
  {| protocol := protocol c; next_id := next_id c; inflight := inflight c;
     subscriptions := v; ka_task := ka_task c;
     server_info := server_info c; proto_code := proto_code c |}.

Definition set_ka_task (v : option ref) (c : Client) : Client :=
  {| protocol := protocol c; next_id := next_id c; inflight := inflight c;
     subscriptions := subscriptions c; ka_task := v;
     server_info := server_info c; proto_code := proto_code c |}.

Definition set_server_info (v : option ServerInfo) (c : Client) : Client :=
  {| protocol := protocol c; next_id := next_id c; inflight := inflight c;
     subscriptions := subscriptions c; ka_task := ka_task c;
     server_info := v; proto_code := proto_code c |}.

Definition set_proto_code (v : option string) (c : Client) : Client :=
  {| protocol := protocol c; next_id := next_id c; inflight := inflight c;
     subscriptions := subscriptions c; ka_task := ka_task c;
     server_info := server_info c; proto_code := v |}.

(** ** The monad: state that survives an exception *)

Definition M (A : Type) : Type := World -> Outcome A * World.

#[global] Instance M_ret : MRet M := fun A a w => (Ok a, w).

#[global] Instance M_bind : MBind M := fun A B f m w =>
  match m w with
  | (Ok a, w') => f a w'
  | (Raise e, w') => (Raise e, w')
  end.

Definition raise {A} (e : exn) : M A := fun w => (Raise e, w).

Definition lift {A} (o : Outcome A) : M A := fun w => (o, w).

Definition gets {A} (f : Client -> A) : M A := fun w => (Ok (f (self w)), w).

Definition update (f : Client -> Client) : M unit :=
  fun w => (Ok tt, with_self f w).

Definition emit (e : event) : M unit :=
  fun w => (Ok tt, {| self := self w; futures := futures w;
                      fresh := fresh w; trace := trace w ++ [e] |}).

Definition log (lvl : level) (text : string) (arg : log_arg) : M unit :=
  emit (EvLog lvl text arg).

(** [assert cond, detail] *)
Definition assert (cond : bool) (detail : string) : M unit :=
  if cond then mret tt else raise (AssertionError detail).

(** A new object (an [asyncio.Queue], a task, a protocol): a fresh identity. *)
Definition new_object : M ref :=
  fun w => (Ok (fresh w), {| self := self w; futures := futures w;
                             fresh := S (fresh w); trace := trace w |}).

(** [asyncio.Future(loop=self.loop)]: a fresh future, pending. *)
Definition new_future : M ref :=
  fun w => (Ok (fresh w), {| self := self w;
                             futures := <[fresh w := Pending]> (futures w);
                             fresh := S (fresh w); trace := trace w |}).

(** [Future.set_result] and [Future.set_exception]: a future that is no
    longer pending refuses with [InvalidStateError]. *)
Definition resolve (f : ref) (s : fut_state) : M unit :=
  fun w =>
    match futures w !! f with
    | Some Pending =>
        (Ok tt, {| self := self w; futures := <[f := s]> (futures w);
                   fresh := fresh w; trace := trace w |})
    | _ => (Raise InvalidStateError, w)
    end.

Definition set_result (f : ref) (v : json) : M unit := resolve f (Fulfilled v).

Definition set_exception (f : ref) (e : exn) : M unit := resolve f (Failed e).

(** [for x in xs: body(x)] *)
Fixpoint for_each {A} (body : A -> M unit) (xs : list A) : M unit :=
  match xs with
  | [] => mret tt
  | x :: rest => body x;; for_each body rest
  end.

(** ** Dict access with decoded JSON keys *)

(** How a decoded JSON value hashes and compares as a dict key: lists and
    dicts are unhashable, [True] and [False] are the integers 1 and 0. *)
Inductive key_view :=
| Unhashable
| IntKey (z : Z)
| StrKey (s : string)
| NoneKey.

Definition as_key (v : json) : key_view :=
  match v with
  | JNull => NoneKey
  | JBool b => IntKey (if b then 1 else 0)
  | JInt z => IntKey z
  | JStr s => StrKey s
  | JArr _ | JObj _ => Unhashable
  end.

(** [key in msg] *)
Definition msg_has (msg : message) (key : string) : bool :=
  match msg !! key with Some _ => true | None => false end.

(** [self.inflight.pop(resp_id)]: no default is given, so a missing key
    raises [KeyError]; the keys of [inflight] are integers. *)
Definition inflight_pop (resp_id : json) : M (Request * ref) :=
  match as_key resp_id with
  | Unhashable => raise (TypeError "unhashable type")
  | IntKey z =>
      inf ← gets (fun c => inflight c !! z);
      match inf with
      | Some entry =>
          update (fun c => set_inflight (delete z (inflight c)) c);;
          mret entry
      | None => raise (KeyError resp_id)
      end
  | StrKey _ | NoneKey => raise (KeyError resp_id)
  end.

(** [self.subscriptions.get(method)]: [dict.get] does not call the
    [defaultdict] factory, a missing key answers [None]; the keys of
    [subscriptions] are strings. *)
Definition subscriptions_get (method : json) : M (option (list ref)) :=
  match as_key method with
  | Unhashable => raise (TypeError "unhashable type")
  | StrKey s => gets (fun c => subscriptions c !! s)
  | IntKey _ | NoneKey => mret None
  end.

(** [self.subscriptions[method].append(waitQ)]: indexing the [defaultdict]
    creates the empty list on a missing key. *)
Definition subscriptions_append (method : string) (waitQ : ref) : M unit :=
  update (fun c =>
    set_subscriptions
      (<[method := default [] (subscriptions c !! method) ++ [waitQ]]>
         (subscriptions c)) c).

(** ** [StratumClient._connection_lost] (lines 30-41) *)

Definition _connection_lost (proto : ref) : M unit :=
  cur ← gets protocol;
  if bool_decide (cur ≠ Some proto) then mret tt
  else
    update (set_protocol None);;
    log WARNING "Electrum server connection lost" LogNothing;;
    ka ← gets ka_task;
    match ka with
    | Some t => emit (EvCancel t);; update (set_ka_task None)
    | None => mret tt
    end.

(** ** [StratumClient.close] (lines 43-49) *)

Definition close : M unit :=
  cur ← gets protocol;
  match cur with
  | Some p => emit (EvClose p);; update (set_protocol None)
  | None => mret tt
  end;;
  ka ← gets ka_task;
  match ka with
  | Some t => emit (EvCancel t);; update (set_ka_task None)
  | None => mret tt
  end.

(** ** [StratumClient.connect] (lines 52-111) *)

(** [await create_connection(...)]: the attempt is recorded; a reachable
    destination yields a new protocol object, an unreachable one raises. *)
Definition dial (net : Dial -> bool) (d : Dial) : M ref :=
  emit (EvDial d);;
  if net d then new_object else raise OSError.

Definition connect (net : Dial -> bool) (server_info : ServerInfo)
    (proto_code : string) (use_tor : UseTor) (disable_cert_verify : bool)
    (proxy : option Socks5Addr) : M unit :=
  update (set_server_info (Some server_info));;
  update (set_proto_code (Some proto_code));;
  (if String.eqb proto_code "g"
   then raise (NotImplementedError "sorry no WebSocket transport yet")
   else mret tt);;
  '(hostname, port, use_ssl) ← lift (get_port server_info proto_code);
  '(disable_cert_verify, proxy) ←
    match use_tor with
    | TorFalse => mret (disable_cert_verify, proxy)
    | _ =>
        let '(socks_host, socks_port) :=
          match use_tor with
          | TorAddr h p => (h, p)
          | _ => ("localhost"%string, 9150)
          end in
        let disable_cert_verify := true in
        assert (negb (bool_decide (is_Some proxy)))
               "Sorry not yet supporting proxy->tor->dest";;
        mret (disable_cert_verify, Some (mkSocks5Addr socks_host socks_port))
    end;
  let ssl :=
    if use_ssl && disable_cert_verify then TlsNoVerify
    else if use_ssl then TlsVerify else TlsOff in
  proto ← dial net {| dial_proxy := proxy; dial_host := hostname;
                      dial_port := port; dial_ssl := ssl |};
  old ← gets protocol;
  match old with
  | Some p => emit (EvClose p)
  | None => mret tt
  end;;
  update (set_protocol (Some proto));;
  emit (EvAttach proto);;
  t ← new_object;
  emit (EvKeepalive t);;
  update (set_ka_task (Some t));;
  log DEBUG "Connected to: %r" LogServer.

(** ** [StratumClient._got_response] (lines 150-198) *)

Definition _got_response (msg : message) : M unit :=
  let resp_id := msg_get msg "id" in
  if is_None resp_id then
    let method := msg_get msg "method" in
    if negb (truthy method) then
      log ERROR "Incoming server message had no ID nor method in it" (LogMsg msg)
    else
      let result := msg_get msg "params" in
      log DEBUG "Traffic on subscription: %s" (LogJson method);;
      subs ← subscriptions_get method;
      match subs with
      | None => raise (TypeError "'NoneType' object is not iterable")
      | Some qs => for_each (fun q => emit (EvPut q result)) qs
      end
  else
    assert (negb (msg_has msg "method")) "";;
    let result := msg_get msg "result" in
    (* the popped entry is a pair, which is never falsy: the branch of
       line 184 cannot be taken *)
    '(req, rv) ← inflight_pop resp_id;
    match msg !! "error" with
    | Some err =>
        log INFO "Error response: '%s'" (LogJson err);;
        set_exception rv (ElectrumErrorResponse err req)
    | None => set_result rv result
    end.

(** ** [_send_request], [RPC] and [subscribe] (lines 124-148, 200-228)

    [send_data] is the protocol's method: whatever the transport does when
    it is handed a request, in the world as it is at that moment. *)

(** What [_send_request] returns: [fut], or [(fut, waitQ)]. *)
Inductive handle :=
| Fut (fut : ref)
| FutQ (fut : ref) (waitQ : ref).

Section Transport.

Variable send_data : ref -> Request -> M unit.

Definition _send_request (method : string) (params : list json)
    (is_subscribe : bool) : M handle :=
  update (fun c => set_next_id (next_id c + 1) c);;
  req_id ← gets next_id;
  let msg := {| req_id := req_id; req_method := method; req_params := params |} in
  waitQ ←
    (if is_subscribe then
       q ← new_object;
       subscriptions_append method q;;
       mret (Some q)
     else mret None);
  fut ← new_future;
  update (fun c => set_inflight (<[req_id := (msg, fut)]> (inflight c)) c);;
  cur ← gets protocol;
  match cur with
  | Some p => send_data p msg
  | None => raise (AttributeError "'NoneType' object has no attribute 'send_data'")
  end;;
  mret (match waitQ with Some q => FutQ fut q | None => Fut fut end).

Definition RPC (method : string) (params : list json) : M handle :=
  assert (str_contains "."%char method) "";;
  _send_request method params false.

Definition subscribe (method : string) (params : list json) : M handle :=
  assert (str_contains "."%char method) "";;
  assert (str_endswith method "subscribe") "";;
  _send_request method params true.

End Transport.

(** A protocol that writes the request to its socket and does nothing else. *)
Definition wire_send (p : ref) (msg : Request) : M unit := emit (EvSend p msg).

(** An inbound notification [{"method": method, "params": payload}]. *)
Definition notification (method : string) (payload : json) : message :=
  {[ "method" := JStr method; "params" := payload ]}.

(** A protocol whose peer answers every request at once with a notification
    for the requested method, delivered before [send_data] returns. *)
Definition echo_send (payload : json) (p : ref) (msg : Request) : M unit :=
  emit (EvSend p msg);;
  _got_response (notification (req_method msg) payload).

(** ** Sequences of invocations *)

(** A caller's invocation of [RPC] or of [subscribe]. *)
Inductive Call :=
| CallRPC (method : string) (params : list json)
| CallSubscribe (method : string) (params : list json).

Definition invoke (send_data : ref -> Request -> M unit) (c : Call) : M handle :=
  match c with
  | CallRPC method params => RPC send_data method params
  | CallSubscribe method params => subscribe send_data method params
  end.

(** The assertions of lines 211 and 226-227: an invocation that fails them
    never reaches [_send_request]. *)
Definition call_ok (c : Call) : bool :=
  match c with
  | CallRPC method _ => str_contains "."%char method
  | CallSubscribe method _ =>
      str_contains "."%char method && str_endswith method "subscribe"
  end.

(** Invocations made one after the other on a protocol that only writes;
    one that raises leaves the world it reached to the next. *)
Fixpoint run_calls (cs : list Call) (w : World) : World :=
  match cs with
  | [] => w
  | c :: rest => run_calls rest (snd (invoke wire_send c w))
  end.

(** The ids of the requests handed to the protocol, in order. *)
Definition sent_ids (t : list event) : list Z :=
  omap (fun e => match e with EvSend _ msg => Some (req_id msg) | _ => None end) t.

(** The ids allocated to the invocations [cs] made from [w], in order.
    Line 131 binds [req_id] to [next_id] as line 130 has just incremented
    it: an invocation that moved [next_id] was given its new value, one that
    left it alone (stopped by an assertion) was given none. *)
Fixpoint allocated_ids (cs : list Call) (w : World) : list Z :=
  match cs with
  | [] => []
  | c :: rest =>
      let w' := snd (invoke wire_send c w) in
      (if bool_decide (next_id (self w') = next_id (self w)) then []
       else [next_id (self w')])
      ++ allocated_ids rest w'
  end.

(** The events added to the trace between [w] and a later world [w']. *)
Definition new_events (w w' : World) : list event :=
  drop (length (trace w)) (trace w').

(** ** Histories of a client *)

(** What can happen to a client: a caller connects, invokes or closes; the
    installed protocol delivers a decoded message; a protocol reports that
    its connection is lost. *)
Inductive Op :=
| OpConnect (net : Dial -> bool) (info : ServerInfo) (code : string)
    (use_tor : UseTor) (disable_cert_verify : bool) (proxy : option Socks5Addr)
| OpCall (c : Call)
| OpDeliver (msg : message)
| OpLost (p : ref)
| OpClose.

(** The world an operation leaves, whether it returns or raises. *)
Definition perform (o : Op) (w : World) : World :=
  match o with
  | OpConnect net info code use_tor disable_cert_verify proxy =>
      snd (connect net info code use_tor disable_cert_verify proxy w)
  | OpCall c => snd (invoke wire_send c w)
  | OpDeliver msg => snd (_got_response msg w)
  | OpLost p => snd (_connection_lost p w)
  | OpClose => snd (close w)
  end.

Definition run_ops (ops : list Op) (w : World) : World :=
  fold_left (fun w o => perform o w) ops w.

(** The worlds a client built by [__init__] can be in. *)
Definition reachable (w : World) : Prop :=
  exists ops, w = run_ops ops init_world.

(** What every history keeps true of the request registry. *)
Record consistent (w : World) : Prop := mkConsistent {
  next_id_positive : 1 <= next_id (self w);
  inflight_entries : forall k req fut,
    inflight (self w) !! k = Some (req, fut) ->
    req_id req = k /\ 2 <= k <= next_id (self w)
    /\ futures w !! fut = Some Pending;
  inflight_futures_distinct : forall k1 k2 req1 req2 fut,
    inflight (self w) !! k1 = Some (req1, fut) ->
    inflight (self w) !! k2 = Some (req2, fut) ->
    k1 = k2;
  futures_allocated : forall fut,
    is_Some (futures w !! fut) -> (fut < fresh w)%nat;
  sent_ids_bounded :
    Forall (fun i => 2 <= i <= next_id (self w)) (sent_ids (trace w));
  sent_ids_sorted : StronglySorted Z.lt (sent_ids (trace w))
}.

(** An operation that leaves the request registry alone: it may only
    allocate objects and add events other than sends. *)
Definition registry_untouched (w w' : World) : Prop :=
  next_id (self w') = next_id (self w)
  /\ inflight (self w') = inflight (self w)
  /\ futures w' = futures w
  /\ (fresh w <= fresh w')%nat
  /\ sent_ids (trace w') = sent_ids (trace w).

(** ** Messages and worlds used as concrete inputs *)

(** A client connected through protocol 0 with one outstanding call,
    [server.version] under id 7, whose future is object 1. *)
Definition pending7 : World :=
  {| self := set_inflight {[ 7 := (mkRequest 7 "server.version" [], 1%nat) ]}
               (set_next_id 7 (set_protocol (Some 0%nat) __init__));
     futures := {[ 1%nat := Pending ]};
     fresh := 2%nat;
     trace := [] |}.

(** The responses [{"id": 7, "result": 42}] and
    [{"id": 7, "error": {"code": 1, "message": "bad"}}]. *)
Definition result7 : message := {[ "id" := JInt 7; "result" := JInt 42 ]}.

Definition error7 : message :=
  {[ "id" := JInt 7;
     "error" := JObj [("code"%string, JInt 1); ("message"%string, JStr "bad")] ]}.

(** A message with both an id and a method:
    [{"id": 7, "method": "blockchain.headers.subscribe", "params": []}]. *)
Definition id_and_method7 : message :=
  {[ "id" := JInt 7; "method" := JStr "blockchain.headers.subscribe";
     "params" := JArr [] ]}.

(** A server that speaks TLS on port 50002 under protocol code [s]. *)
Definition tls_server : ServerInfo :=
  {| get_port := fun code =>
       if String.eqb code "s" then Ok ("erbium1.sytes.net"%string, 50002, true)
       else Raise (KeyError (JStr code)) |}.

(** A client right after [__init__] and a [connect] that succeeded. *)
Definition connected_world : World :=
  snd (connect (fun _ => true) tls_server "s" TorFalse false None init_world).

(** ** [connect] around its await

    [connect] suspends once, at [await create_connection(...)].  The
    stretch before the await works out the arguments of the call; the
    stretch after it runs when the coroutine is resumed with the new
    protocol, and other callbacks of the loop may have run in between. *)

(** Lines 59-91: up to the arguments of [create_connection]. *)
Definition connect_prepare (server_info : ServerInfo) (proto_code : string)
    (use_tor : UseTor) (disable_cert_verify : bool)
    (proxy : option Socks5Addr) : M Dial :=
  update (set_server_info (Some server_info));;
  update (set_proto_code (Some proto_code));;
  (if String.eqb proto_code "g"
   then raise (NotImplementedError "sorry no WebSocket transport yet")
   else mret tt);;
  '(hostname, port, use_ssl) ← lift (get_port server_info proto_code);
  '(disable_cert_verify, proxy) ←
    match use_tor with
    | TorFalse => mret (disable_cert_verify, proxy)
    | _ =>
        let '(socks_host, socks_port) :=
          match use_tor with
          | TorAddr h p => (h, p)
          | _ => ("localhost"%string, 9150)
          end in
        let disable_cert_verify := true in
        assert (negb (bool_decide (is_Some proxy)))
               "Sorry not yet supporting proxy->tor->dest";;
        mret (disable_cert_verify, Some (mkSocks5Addr socks_host socks_port))
    end;
  let ssl :=
    if use_ssl && disable_cert_verify then TlsNoVerify
    else if use_ssl then TlsVerify else TlsOff in
  mret {| dial_proxy := proxy; dial_host := hostname;
          dial_port := port; dial_ssl := ssl |}.

(** Lines 103-111: the coroutine resumed with the new protocol. *)
Definition connect_install (proto : ref) : M unit :=
  old ← gets protocol;
  match old with
  | Some p => emit (EvClose p)
  | None => mret tt
  end;;
  update (set_protocol (Some proto));;
  emit (EvAttach proto);;
  t ← new_object;
  emit (EvKeepalive t);;
  update (set_ka_task (Some t));;
  log DEBUG "Connected to: %r" LogServer.

(** ** [StratumClient._keepalive] (lines 113-121)

    The coroutine is followed from one suspension to the next.  Whether and
    when the loop resumes it, and a cancellation of its task, are the
    loop's business and not part of the stretches. *)

(** Where [_keepalive] is suspended, or how its task ended. *)
Inductive ka_point :=
| KaLoop                        (* about to test [while self.protocol] *)
| KaAwaitVersion (fut : ref)    (* at [await self.RPC('server.version')] *)
| KaSleep                       (* at [await asyncio.sleep(600)] *)
| KaReturned                    (* the loop condition was false *)
| KaRaised (e : exn)            (* an exception left the coroutine *)
| KaCancelled.                  (* the awaited future was cancelled *)

(** One stretch of [_keepalive] from the point [pt]: at [KaAwaitVersion] it
    runs with the awaited future as it is (still suspended while the future
    is pending), at [KaSleep] it runs when the timer has fired. *)
Definition _keepalive (send_data : ref -> Request -> M unit) (pt : ka_point)
    (w : World) : ka_point * World :=
  match pt with
  | KaLoop =>
      match protocol (self w) with
      | None => (KaReturned, w)
      | Some _ =>
          match RPC send_data "server.version" [] w with
          | (Ok (Fut fut), w') | (Ok (FutQ fut _), w') => (KaAwaitVersion fut, w')
          | (Raise e, w') => (KaRaised e, w')
          end
      end
  | KaAwaitVersion fut =>
      match futures w !! fut with
      | Some (Fulfilled vers) =>
          (* logger.debug("Server version: " + vers) *)
          match vers with
          | JStr s =>
              (KaSleep, snd (log DEBUG (String.append "Server version: " s) LogNothing w))
          | _ => (KaRaised (TypeError "can only concatenate str to str"), w)
          end
      | Some (Failed e) => (KaRaised e, w)
      | Some Cancelled => (KaCancelled, w)
      | Some Pending | None => (KaAwaitVersion fut, w)
      end
  | KaSleep => (KaLoop, w)
  | KaReturned | KaRaised _ | KaCancelled => (pt, w)
  end.

(** Unfolds the monad's plumbing so that a computation can be followed
    step by step. *)
Ltac step :=
  unfold mbind, M_bind, mret, M_ret, gets, update, emit, log, assert, raise,
    lift in *; simpl in *.

(** * Verified properties *)

(** ** Sanity of the model on concrete inputs *)

Example truthy_empty_string : truthy (JStr "") = false.
Proof. reflexivity. Qed.

Example endswith_subscribe :
  str_endswith "server.peers.subscribe" "subscribe" = true
  /\ str_endswith "server.version" "subscribe" = false
  /\ str_endswith "scribe" "subscribe" = false.
Proof. repeat split; reflexivity. Qed.

Example connected_world_is_connected :
  protocol (self connected_world) = Some 0%nat
  /\ ka_task (self connected_world) = Some 1%nat
  /\ next_id (self connected_world) = 1.
Proof. repeat split; reflexivity. Qed.

Example call_before_connect_raises :
  fst (RPC wire_send "server.version" [] init_world)
  = Raise (AttributeError "'NoneType' object has no attribute 'send_data'").
Proof. reflexivity. Qed.

(** Error routing: the future of request 7 fails with the server's payload
    and the original request. *)
Example error_response_fails_future :
  _got_response error7 pending7
  = (Ok tt,
     {| self := set_inflight ∅ (self pending7);
        futures :=
          {[ 1%nat :=
               Failed (ElectrumErrorResponse
                         (JObj [("code"%string, JInt 1);
                                ("message"%string, JStr "bad")])
                         (mkRequest 7 "server.version" [])) ]};
        fresh := 2%nat;
        trace :=
          [EvLog INFO "Error response: '%s'"
             (LogJson (JObj [("code"%string, JInt 1);
                             ("message"%string, JStr "bad")]))] |}).
Proof. reflexivity. Qed.

(** A message with neither id nor method is logged and dropped. *)
Example no_id_no_method_dropped :
  _got_response {[ "foo" := JStr "bar" ]} pending7
  = (Ok tt,
     {| self := self pending7; futures := futures pending7;
        fresh := fresh pending7;
        trace :=
          [EvLog ERROR "Incoming server message had no ID nor method in it"
             (LogMsg {[ "foo" := JStr "bar" ]})] |}).
Proof. reflexivity. Qed.

(** Two subscriptions to one method both get a notification, in the order
    they were registered. *)
Example two_subscribers_fan_out :
  let w2 := run_calls [CallSubscribe "server.peers.subscribe" [];
                       CallSubscribe "server.peers.subscribe" []]
              connected_world in
  subscriptions (self w2) !! "server.peers.subscribe"%string = Some [2%nat; 4%nat]
  /\ new_events w2
       (snd (_got_response (notification "server.peers.subscribe" (JArr [JInt 9])) w2))
     = [EvLog DEBUG "Traffic on subscription: %s"
          (LogJson (JStr "server.peers.subscribe"));
        EvPut 2%nat (JArr [JInt 9]);
        EvPut 4%nat (JArr [JInt 9])].
Proof. split; reflexivity. Qed.

(** ** close *)

(** C8: [close()] always returns normally, and a second [close()] right
    after it returns normally and leaves the whole world as the first call
    left it: no protocol is closed, no task is cancelled, nothing is logged. *)
Theorem close_idempotent (w : World) :
  fst (close w) = Ok tt
  /\ close (snd (close w)) = (Ok tt, snd (close w))
  /\ trace (snd (close (snd (close w)))) = trace (snd (close w)).
Proof.
  destruct w as [[[p|] n infl subs [t|] info code] futs fr tr];
    repeat split; reflexivity.
Qed.

(** ** _connection_lost *)

(** C9: a connection-lost report from a protocol that is not the installed
    one returns normally and leaves the whole world as it was: protocol,
    keep-alive task, inflight and subscriptions are untouched. *)
Theorem stale_connection_lost_ignored (w : World) (p : ref) :
  protocol (self w) <> Some p ->
  _connection_lost p w = (Ok tt, w).
Proof.
  intros Hstale. unfold _connection_lost, mbind, M_bind, gets. simpl.
  rewrite bool_decide_eq_true_2 by exact Hstale. reflexivity.
Qed.

Lemma stale_connection_lost_ignored_witness :
  protocol (self connected_world) <> Some 5%nat
  /\ _connection_lost 5%nat connected_world = (Ok tt, connected_world).
Proof.
  assert (H : protocol (self connected_world) <> Some 5%nat)
    by (simpl; discriminate).
  split; [exact H | exact (stale_connection_lost_ignored connected_world 5%nat H)].
Defined.

(** ** connect *)

(** C10: [connect] with protocol code [g] raises [NotImplementedError]
    before any connection attempt: nothing is dialled, the installed
    protocol and the keep-alive task stay.  The failure is not atomic: the
    attributes [server_info] and [proto_code] already hold the new values. *)
Theorem connect_websocket_not_atomic (net : Dial -> bool) (info : ServerInfo)
    (use_tor : UseTor) (disable_cert_verify : bool)
    (proxy : option Socks5Addr) (w : World) :
  let r := connect net info "g" use_tor disable_cert_verify proxy w in
  r = (Raise (NotImplementedError "sorry no WebSocket transport yet"),
       with_self (fun c => set_proto_code (Some "g"%string)
                             (set_server_info (Some info) c)) w)
  /\ trace (snd r) = trace w
  /\ protocol (self (snd r)) = protocol (self w)
  /\ ka_task (self (snd r)) = ka_task (self w)
  /\ server_info (self (snd r)) = Some info
  /\ proto_code (self (snd r)) = Some "g"%string.
Proof.
  repeat split; reflexivity.
Qed.

(** ** _got_response: responses *)

(** A response whose id has no entry in [inflight] raises [KeyError] out
    of the dispatcher, and the world stays as it was. *)
Lemma unknown_id_raises (w : World) (msg : message) (k : Z) :
  msg !! "id" = Some (JInt k) ->
  msg !! "method" = None ->
  inflight (self w) !! k = None ->
  _got_response msg w = (Raise (KeyError (JInt k)), w).
Proof.
  intros Hid Hmeth Hinf.
  unfold _got_response, msg_get, msg_has. rewrite Hid, Hmeth. simpl.
  unfold inflight_pop. step. rewrite Hinf. reflexivity.
Qed.

(** A message with a non-null [id] and a [method] key stops at the
    assertion of line 179 and the world stays as it was. *)
Lemma id_with_method_raises (w : World) (msg : message) (v : json) :
  msg !! "id" = Some v ->
  v <> JNull ->
  is_Some (msg !! "method") ->
  _got_response msg w = (Raise (AssertionError ""), w).
Proof.
  intros Hid Hv [m Hm].
  unfold _got_response, msg_get, msg_has. rewrite Hid, Hm. simpl.
  destruct v; try congruence; reflexivity.
Qed.

(** The world a response leaves when it resolves the entry under [k]. *)
Lemma got_response_resolves (w : World) (msg : message) (k : Z)
    (req : Request) (rv : ref) :
  msg !! "id" = Some (JInt k) ->
  msg !! "method" = None ->
  inflight (self w) !! k = Some (req, rv) ->
  futures w !! rv = Some Pending ->
  _got_response msg w
  = (Ok tt,
     {| self := set_inflight (delete k (inflight (self w))) (self w);
        futures :=
          <[rv := match msg !! "error" with
                  | Some err => Failed (ElectrumErrorResponse err req)
                  | None => Fulfilled (msg_get msg "result")
                  end]> (futures w);
        fresh := fresh w;
        trace :=
          trace w ++
          match msg !! "error" with
          | Some err => [EvLog INFO "Error response: '%s'" (LogJson err)]
          | None => []
          end |}).
Proof.
  intros Hid Hmeth Hinf Hfut.
  unfold _got_response, msg_get, msg_has. rewrite Hid, Hmeth. simpl.
  unfold inflight_pop. step. rewrite Hinf. simpl.
  destruct (msg !! "error") as [err|]; simpl.
  - unfold set_exception, resolve. simpl. rewrite Hfut. reflexivity.
  - unfold set_result, resolve. simpl. rewrite Hfut.
    rewrite app_nil_r. reflexivity.
Qed.

(** C1: a message whose [id] is that of an outstanding request, and that is
    a response (it has no [method] key), makes the dispatcher return
    normally, remove the entry from [inflight] and resolve its future, still
    pending, once: with [ElectrumErrorResponse(err, req)] when the message
    has an [error] key, and otherwise with the value under [result] ([None]
    when there is none).  No other future changes, and whatever message
    carrying this id comes afterwards resolves nothing. *)
Theorem response_resolves_pending (w : World) (msg : message) (k : Z)
    (req : Request) (rv : ref) :
  msg !! "id" = Some (JInt k) ->
  msg !! "method" = None ->
  inflight (self w) !! k = Some (req, rv) ->
  futures w !! rv = Some Pending ->
  let w' :=
    {| self := set_inflight (delete k (inflight (self w))) (self w);
       futures :=
         <[rv := match msg !! "error" with
                 | Some err => Failed (ElectrumErrorResponse err req)
                 | None => Fulfilled (msg_get msg "result")
                 end]> (futures w);
       fresh := fresh w;
       trace :=
         trace w ++
         match msg !! "error" with
         | Some err => [EvLog INFO "Error response: '%s'" (LogJson err)]
         | None => []
         end |} in
  _got_response msg w = (Ok tt, w')
  /\ inflight (self w') !! k = None
  /\ (forall msg' : message,
        msg' !! "id" = Some (JInt k) ->
        futures (snd (_got_response msg' w')) = futures w').
Proof.
  intros Hid Hmeth Hinf Hfut w'. split; [|split].
  - apply got_response_resolves; assumption.
  - subst w'. simpl. apply lookup_delete_eq.
  - intros msg' Hid'.
    assert (Hgone : inflight (self w') !! k = None)
      by (subst w'; simpl; apply lookup_delete_eq).
    destruct (msg' !! "method") as [m|] eqn:Hm.
    + rewrite (id_with_method_raises w' msg' (JInt k)); eauto; discriminate.
    + rewrite (unknown_id_raises w' msg' k); auto.
Qed.

Lemma response_resolves_pending_witness :
  _got_response result7 pending7
  = (Ok tt,
     {| self := set_inflight ∅ (self pending7);
        futures := {[ 1%nat := Fulfilled (JInt 42) ]};
        fresh := 2%nat;
        trace := [] |}).
Proof.
  exact (proj1 (response_resolves_pending pending7 result7 7
                  (mkRequest 7 "server.version" []) 1%nat
                  eq_refl eq_refl eq_refl eq_refl)).
Defined.

(** C2: the code does not drop a response whose id is unknown.
    [inflight.pop(resp_id)] has no default, so on a connected client with
    nothing outstanding [{"id": 7, "result": 42}] raises [KeyError(7)] out of
    the dispatcher, before the test and the log of lines 184-185; and after
    the response to request 7 was delivered once, the same response
    delivered again raises [KeyError(7)] too.  In both cases the world is
    left as it was. *)
Theorem unknown_id_raises_KeyError :
  _got_response result7 connected_world
  = (Raise (KeyError (JInt 7)), connected_world)
  /\ (let w1 := snd (_got_response result7 pending7) in
      fst (_got_response result7 pending7) = Ok tt
      /\ _got_response result7 w1 = (Raise (KeyError (JInt 7)), w1)).
Proof.
  split; [|split].
  - apply unknown_id_raises; reflexivity.
  - reflexivity.
  - apply unknown_id_raises; reflexivity.
Qed.

(** C3, as stated, fails: a message with id 7 and a method does not return
    normally, it raises [AssertionError]. *)
Lemma id_and_method_not_dropped :
  fst (_got_response id_and_method7 pending7) = Raise (AssertionError "")
  /\ fst (_got_response id_and_method7 pending7) <> Ok tt.
Proof.
  split; [reflexivity | discriminate].
Qed.

(** C3, amended: a message with a non-null [id] and a [method] key makes
    the dispatcher raise [AssertionError] at line 179, before it looks at
    [inflight]: no future is resolved, no entry is removed, nothing is put on
    a queue or logged; the world is left as it was. *)
Theorem id_and_method_raises_AssertionError (w : World) (msg : message)
    (v : json) :
  msg !! "id" = Some v ->
  v <> JNull ->
  is_Some (msg !! "method") ->
  let r := _got_response msg w in
  r = (Raise (AssertionError ""), w)
  /\ futures (snd r) = futures w
  /\ inflight (self (snd r)) = inflight (self w)
  /\ trace (snd r) = trace w.
Proof.
  intros Hid Hv Hm r. subst r.
  rewrite (id_with_method_raises w msg v Hid Hv Hm). repeat split.
Qed.

Lemma id_and_method_raises_AssertionError_witness :
  _got_response id_and_method7 pending7 = (Raise (AssertionError ""), pending7).
Proof.
  refine (proj1 (id_and_method_raises_AssertionError pending7 id_and_method7
                   (JInt 7) _ _ _)).
  - reflexivity.
  - discriminate.
  - eexists; reflexivity.
Defined.

(** ** _got_response: notifications *)

Lemma for_each_put (item : json) (qs : list ref) (w : World) :
  for_each (fun q => emit (EvPut q item)) qs w
  = (Ok tt, {| self := self w; futures := futures w; fresh := fresh w;
               trace := trace w ++ map (fun q => EvPut q item) qs |}).
Proof.
  revert w. induction qs as [|q qs IH]; intros w; simpl.
  - rewrite app_nil_r. destruct w; reflexivity.
  - step. rewrite IH. simpl. rewrite <- app_assoc. reflexivity.
Qed.

(** A notification for a method under which [subscriptions] has no key:
    [subscriptions.get] answers [None] and the loop of line 174 raises. *)
Lemma unsubscribed_notification_raises (w : World) (method : string)
    (payload : json) :
  method <> ""%string ->
  subscriptions (self w) !! method = None ->
  _got_response (notification method payload) w
  = (Raise (TypeError "'NoneType' object is not iterable"),
     {| self := self w; futures := futures w; fresh := fresh w;
        trace := trace w ++
          [EvLog DEBUG "Traffic on subscription: %s" (LogJson (JStr method))] |}).
Proof.
  intros Hne Hsub.
  unfold _got_response, msg_get, notification.
  rewrite lookup_insert_ne by discriminate.
  rewrite lookup_singleton_ne by discriminate.
  rewrite lookup_insert_eq. simpl.
  destruct (String.eqb_spec method "") as [->|_]; [congruence|]. simpl.
  unfold subscriptions_get. step. rewrite Hsub. reflexivity.
Qed.

(** C4: the code does not drop a notification for a method nobody
    subscribed to.  On a connected client without subscriptions
    [{"method": "blockchain.headers.subscribe", "params": []}] raises
    [TypeError] out of the dispatcher, after the debug line was logged. *)
Theorem unsubscribed_notification_raises_TypeError :
  subscriptions (self connected_world) = ∅
  /\ _got_response (notification "blockchain.headers.subscribe" (JArr []))
       connected_world
     = (Raise (TypeError "'NoneType' object is not iterable"),
        {| self := self connected_world;
           futures := futures connected_world;
           fresh := fresh connected_world;
           trace := trace connected_world ++
             [EvLog DEBUG "Traffic on subscription: %s"
                (LogJson (JStr "blockchain.headers.subscribe"))] |}).
Proof.
  split; [reflexivity|].
  apply unsubscribed_notification_raises; [discriminate | reflexivity].
Qed.

(** A notification for a method that has channels is put on each of them,
    in registration order. *)
Lemma subscribed_notification_fans_out (w : World) (method : string)
    (payload : json) (qs : list ref) :
  method <> ""%string ->
  subscriptions (self w) !! method = Some qs ->
  _got_response (notification method payload) w
  = (Ok tt,
     {| self := self w; futures := futures w; fresh := fresh w;
        trace := trace w ++
          [EvLog DEBUG "Traffic on subscription: %s" (LogJson (JStr method))]
          ++ map (fun q => EvPut q payload) qs |}).
Proof.
  intros Hne Hsub.
  unfold _got_response, msg_get, notification.
  rewrite lookup_insert_ne by discriminate.
  rewrite lookup_singleton_ne by discriminate.
  rewrite lookup_insert_eq. simpl.
  destruct (String.eqb_spec method "") as [->|_]; [congruence|]. simpl.
  unfold subscriptions_get, log, mbind, M_bind, gets. simpl. rewrite Hsub.
  rewrite for_each_put. simpl. rewrite <- app_assoc. reflexivity.
Qed.

Lemma str_contains_nonempty (c : Ascii.ascii) (s : string) :
  str_contains c s = true -> s <> ""%string.
Proof. destruct s; [discriminate | intros _; discriminate]. Qed.

(** ** subscribe *)

(** C6: a [subscribe] that passes its assertions on a client with a
    protocol [p] calls [send_data p req] exactly in the world [w1] in which
    the new queue [q] is already the last channel of the method (and the
    request is already in [inflight]), while nothing has been handed to the
    protocol yet; the queue returned to the caller is this [q].  Hence a
    protocol whose peer answers the request at once with a notification for
    the method, before [send_data] returns, has the payload put on [q]. *)
Theorem subscribe_registers_before_send
    (send_data : ref -> Request -> M unit) (method : string)
    (params : list json) (w : World) (p : ref) :
  str_contains "."%char method = true ->
  str_endswith method "subscribe" = true ->
  protocol (self w) = Some p ->
  let q := fresh w in
  let fut := S (fresh w) in
  let req := mkRequest (next_id (self w) + 1) method params in
  let channels := default [] (subscriptions (self w) !! method) ++ [q] in
  let w1 :=
    {| self :=
         set_inflight (<[req_id req := (req, fut)]> (inflight (self w)))
           (set_subscriptions (<[method := channels]> (subscriptions (self w)))
              (set_next_id (next_id (self w) + 1) (self w)));
       futures := <[fut := Pending]> (futures w);
       fresh := S (S (fresh w));
       trace := trace w |} in
  subscribe send_data method params w
  = (match send_data p req w1 with
     | (Ok _, w2) => (Ok (FutQ fut q), w2)
     | (Raise e, w2) => (Raise e, w2)
     end)
  /\ subscriptions (self w1) !! method = Some channels
  /\ last channels = Some q
  /\ (forall payload : json,
        subscribe (echo_send payload) method params w
        = (Ok (FutQ fut q),
           {| self := self w1; futures := futures w1; fresh := fresh w1;
              trace := trace w ++
                [EvSend p req;
                 EvLog DEBUG "Traffic on subscription: %s" (LogJson (JStr method))]
                ++ map (fun q' => EvPut q' payload) channels |})).
Proof.
  intros Hdot Hsuffix Hp q fut req channels w1.
  assert (Hrun : forall send,
    subscribe send method params w
    = (match send p req w1 with
       | (Ok _, w2) => (Ok (FutQ fut q), w2)
       | (Raise e, w2) => (Raise e, w2)
       end)).
  { intros send. unfold subscribe, _send_request, subscriptions_append,
      new_object, new_future.
    step. rewrite Hdot, Hsuffix. simpl. rewrite Hp.
    subst w1 channels req fut q. reflexivity. }
  assert (Hsub : subscriptions (self w1) !! method = Some channels)
    by (subst w1; simpl; apply lookup_insert_eq).
  split; [apply Hrun|]. split; [exact Hsub|]. split.
  - subst channels. apply last_snoc.
  - intros payload. rewrite Hrun. unfold echo_send, mbind, M_bind, emit.
    change (req_method req) with method.
    rewrite subscribed_notification_fans_out with (qs := channels).
    + simpl. rewrite <- app_assoc. reflexivity.
    + eapply str_contains_nonempty; eassumption.
    + exact Hsub.
Qed.

Lemma subscribe_registers_before_send_witness :
  subscribe (echo_send (JArr [JInt 1])) "server.peers.subscribe" []
    connected_world
  = (Ok (FutQ 3%nat 2%nat),
     {| self :=
          set_inflight
            {[ 2 := (mkRequest 2 "server.peers.subscribe" [], 3%nat) ]}
            (set_subscriptions {[ "server.peers.subscribe"%string := [2%nat] ]}
               (set_next_id 2 (self connected_world)));
        futures := {[ 3%nat := Pending ]};
        fresh := 4%nat;
        trace := trace connected_world ++
          [EvSend 0%nat (mkRequest 2 "server.peers.subscribe" []);
           EvLog DEBUG "Traffic on subscription: %s"
             (LogJson (JStr "server.peers.subscribe"));
           EvPut 2%nat (JArr [JInt 1])] |}).
Proof.
  exact (proj2 (proj2 (proj2
           (subscribe_registers_before_send wire_send
              "server.peers.subscribe" [] connected_world 0%nat
              eq_refl eq_refl eq_refl)))
           (JArr [JInt 1])).
Defined.

(** ** Request ids *)

Lemma seqZ_strongly_sorted (n : nat) (m : Z) :
  StronglySorted Z.lt (seqZ m (Z.of_nat n)).
Proof.
  revert m. induction n as [|n IH]; intros m.
  - rewrite seqZ_nil by lia. constructor.
  - rewrite seqZ_cons by lia.
    replace (Z.pred (Z.of_nat (S n))) with (Z.of_nat n) by lia.
    constructor; [apply IH|].
    apply Forall_seqZ. intros; lia.
Qed.

Lemma sent_ids_app (t1 t2 : list event) :
  sent_ids (t1 ++ t2) = sent_ids t1 ++ sent_ids t2.
Proof. unfold sent_ids. apply omap_app. Qed.

(** One invocation: when its assertions hold it increments [next_id],
    registers under the new value a request carrying that id, and hands the
    request to the protocol if there is one; when they fail nothing happens. *)
Lemma invoke_wire_send (c : Call) (w : World) :
  let w' := snd (invoke wire_send c w) in
  if call_ok c
  then next_id (self w') = next_id (self w) + 1
       /\ protocol (self w') = protocol (self w)
       /\ exists req fut,
            req_id req = next_id (self w) + 1
            /\ inflight (self w')
               = <[next_id (self w) + 1 := (req, fut)]> (inflight (self w))
            /\ trace w' = trace w ++
                 match protocol (self w) with
                 | Some p => [EvSend p req]
                 | None => []
                 end
            /\ futures w' = <[fut := Pending]> (futures w)
            /\ (fresh w <= fut < fresh w')%nat
  else w' = w.
Proof.
  destruct c as [method params | method params]; simpl;
    unfold RPC, subscribe, _send_request, subscriptions_append, new_object,
      new_future, wire_send; step.
  - destruct (str_contains "." method); simpl; [|reflexivity].
    destruct (protocol (self w)) as [p|] eqn:Hp; simpl;
      rewrite ?Hp, ?app_nil_r;
      (split; [reflexivity|]; split; [reflexivity|]; eexists _, _;
       split; [|split; [reflexivity|split; [reflexivity|split; [reflexivity|lia]]]];
       reflexivity).
  - destruct (str_contains "." method); simpl; [|reflexivity].
    destruct (str_endswith method "subscribe"); simpl; [|reflexivity].
    destruct (protocol (self w)) as [p|] eqn:Hp; simpl;
      rewrite ?Hp, ?app_nil_r;
      (split; [reflexivity|]; split; [reflexivity|]; eexists _, _;
       split; [|split; [reflexivity|split; [reflexivity|split; [reflexivity|lia]]]];
       reflexivity).
Qed.

(** A sequence of invocations from any world: the ids follow [next_id],
    entries already registered under ids up to [next_id] stay, every
    allocated id is registered with a request that carries it, and on a
    client with a protocol the ids are those of the requests sent. *)
Lemma run_calls_ids (cs : list Call) (w : World) :
  allocated_ids cs w
  = seqZ (next_id (self w) + 1) (Z.of_nat (length (List.filter call_ok cs)))
  /\ (forall k e, k <= next_id (self w) ->
        inflight (self w) !! k = Some e ->
        inflight (self (run_calls cs w)) !! k = Some e)
  /\ (forall i, i ∈ allocated_ids cs w ->
        exists req fut,
          inflight (self (run_calls cs w)) !! i = Some (req, fut)
          /\ req_id req = i)
  /\ (exists ext, trace (run_calls cs w) = trace w ++ ext
        /\ (is_Some (protocol (self w)) -> sent_ids ext = allocated_ids cs w)).
Proof.
  revert w. induction cs as [|c cs IH]; intros w.
  - simpl. rewrite seqZ_nil by lia. repeat split; auto.
    + intros i Hi. inversion Hi.
    + exists []. rewrite app_nil_r. auto.
  - pose proof (invoke_wire_send c w) as Hc.
    destruct (IH (snd (invoke wire_send c w))) as (Hids & Hkeep & Hreg & ext & Htr & Hsent).
    cbn [allocated_ids run_calls List.filter]. cbv zeta.
    destruct (call_ok c).
    + destruct Hc as (Hnext & Hproto & req & fut & Hreq & Hinf & Hsend & _).
      rewrite bool_decide_eq_false_2 by lia.
      rewrite Hids, Hnext. cbn [length].
      rewrite (seqZ_cons (next_id (self w) + 1)) by lia.
      replace (Z.pred (Z.of_nat (S (length (List.filter call_ok cs)))))
        with (Z.of_nat (length (List.filter call_ok cs))) by lia.
      replace (Z.succ (next_id (self w) + 1)) with (next_id (self w) + 1 + 1) by lia.
      split; [reflexivity|]. split; [|split].
      * intros k e Hk He. apply Hkeep; [lia|].
        rewrite Hinf, lookup_insert_ne by lia. exact He.
      * intros i Hi. apply elem_of_cons in Hi as [->|Hi].
        -- exists req, fut. split; [|exact Hreq].
           apply Hkeep; [lia|]. rewrite Hinf. apply lookup_insert_eq.
        -- apply Hreg. rewrite Hids, Hnext. exact Hi.
      * exists (match protocol (self w) with
                | Some p => [EvSend p req]
                | None => []
                end ++ ext).
        split; [rewrite Htr, Hsend, <- app_assoc; reflexivity|].
        intros [p Hp]. rewrite Hp, sent_ids_app. cbn. rewrite Hreq. f_equal.
        rewrite Hsent by (rewrite Hproto, Hp; eauto).
        rewrite Hids, Hnext. reflexivity.
    + rewrite Hc in *. rewrite bool_decide_eq_true_2 by reflexivity.
      cbn [app]. split; [exact Hids|]. split; [exact Hkeep|].
      split; [exact Hreg|]. exists ext. split; assumption.
Qed.

(** C5: on a client that has allocated no id yet ([next_id] is still 1),
    the invocations of any sequence of [RPC] and [subscribe] calls are given
    the ids 2, 3, 4, ... in order, one for each invocation that passes its
    assertions: the ids are strictly increasing and pairwise distinct, and
    the first one is 2.  Each id is the key under which the invocation's
    request, carrying that id, is registered in [inflight]; and when the
    client has a protocol, the ids are those of the requests handed to it,
    in that order. *)
Theorem allocated_ids_increasing_from_2 (cs : list Call) (w : World) :
  next_id (self w) = 1 ->
  let ids := allocated_ids cs w in
  ids = seqZ 2 (Z.of_nat (length (List.filter call_ok cs)))
  /\ StronglySorted Z.lt ids
  /\ NoDup ids
  /\ (ids <> [] -> head ids = Some 2)
  /\ (forallb call_ok cs = true -> length ids = length cs)
  /\ (forall i, i ∈ ids ->
        exists req fut,
          inflight (self (run_calls cs w)) !! i = Some (req, fut)
          /\ req_id req = i)
  /\ (is_Some (protocol (self w)) ->
      sent_ids (new_events w (run_calls cs w)) = ids).
Proof.
  intros Hnext ids.
  destruct (run_calls_ids cs w) as (Hids & _ & Hreg & ext & Htr & Hsent).
  rewrite Hnext in Hids. change (1 + 1) with 2 in Hids. fold ids in Hids, Hreg, Hsent.
  split; [exact Hids|]. split; [rewrite Hids; apply seqZ_strongly_sorted|].
  split; [rewrite Hids; apply NoDup_seqZ|]. split; [|split; [|split]].
  - rewrite Hids. destruct (length (List.filter call_ok cs)) as [|n].
    + rewrite seqZ_nil by lia. congruence.
    + intros _. rewrite seqZ_cons by lia. reflexivity.
  - intros Hall. rewrite Hids, length_seqZ, Nat2Z.id. f_equal.
    clear -Hall. induction cs as [|c cs IH]; [reflexivity|].
    simpl in *. apply andb_prop in Hall as [Hc Hcs]. rewrite Hc.
    simpl. f_equal. apply IH, Hcs.
  - exact Hreg.
  - intros Hp. unfold new_events. rewrite Htr, drop_app_length. auto.
Qed.

Lemma allocated_ids_increasing_from_2_witness :
  allocated_ids
    [CallRPC "server.version" []; CallSubscribe "server.peers.subscribe" [];
     CallRPC "blockchain.address.get_balance" [JStr "1A1z"]]
    connected_world
  = [2; 3; 4].
Proof.
  exact (proj1 (allocated_ids_increasing_from_2
                  [CallRPC "server.version" [];
                   CallSubscribe "server.peers.subscribe" [];
                   CallRPC "blockchain.address.get_balance" [JStr "1A1z"]]
                  connected_world eq_refl)).
Defined.

(** ** connect through Tor *)

(** What a [connect] with a truthy [use_tor] and no [proxy] does once the
    protocol code is accepted and the server record has answered: it dials
    through the SOCKS5 address taken from [use_tor], with TLS either off or
    unverified. *)
Lemma connect_tor_dials (net : Dial -> bool) (info : ServerInfo)
    (code host : string) (port : Z) (use_ssl dcv : bool) (use_tor : UseTor)
    (w : World) :
  code <> "g"%string ->
  get_port info code = Ok (host, port, use_ssl) ->
  use_tor <> TorFalse ->
  exists rest,
    trace (snd (connect net info code use_tor dcv None w))
    = trace w ++
      EvDial {| dial_proxy :=
                  Some match use_tor with
                       | TorAddr h p => mkSocks5Addr h p
                       | _ => mkSocks5Addr "localhost" 9150
                       end;
                dial_host := host;
                dial_port := port;
                dial_ssl := if use_ssl then TlsNoVerify else TlsOff |} :: rest.
Proof.
  intros Hcode Hport Htor.
  unfold connect, dial, new_object. step.
  destruct (String.eqb_spec code "g") as [->|_]; [congruence|]. simpl.
  rewrite Hport. simpl.
  destruct use_tor as [| | h p]; [congruence| |]; simpl;
    destruct use_ssl; simpl;
    match goal with |- context [net ?d] => destruct (net d) end; simpl;
    try (destruct (protocol (self w)); simpl);
    eexists; rewrite <- ?app_assoc; simpl; reflexivity.
Qed.

(** C7: for a [connect] with a truthy [use_tor] whose protocol code is
    accepted and whose server record answers: with [use_tor=True] and no
    proxy the connection is dialled through SOCKS5 [localhost:9150]; with
    any truthy [use_tor] and no proxy the outcome does not depend on
    [disable_cert_verify] and the dial never asks for verified TLS (TLS is
    off, or on without verification); with a proxy given as well the call
    raises at the assertion of line 79 without dialling. *)
Theorem tor_proxy_policy (net : Dial -> bool) (info : ServerInfo)
    (code host : string) (port : Z) (use_ssl dcv : bool) (w : World) :
  code <> "g"%string ->
  get_port info code = Ok (host, port, use_ssl) ->
  (exists rest,
     trace (snd (connect net info code TorTrue dcv None w))
     = trace w ++
       EvDial {| dial_proxy := Some (mkSocks5Addr "localhost" 9150);
                 dial_host := host;
                 dial_port := port;
                 dial_ssl := if use_ssl then TlsNoVerify else TlsOff |} :: rest)
  /\ (forall use_tor : UseTor,
        use_tor <> TorFalse ->
        connect net info code use_tor dcv None w
        = connect net info code use_tor true None w
        /\ exists d rest,
             trace (snd (connect net info code use_tor dcv None w))
             = trace w ++ EvDial d :: rest
             /\ is_Some (dial_proxy d)
             /\ dial_ssl d <> TlsVerify)
  /\ (forall (use_tor : UseTor) (px : Socks5Addr),
        use_tor <> TorFalse ->
        connect net info code use_tor dcv (Some px) w
        = (Raise (AssertionError "Sorry not yet supporting proxy->tor->dest"),
           with_self (fun c => set_proto_code (Some code)
                                 (set_server_info (Some info) c)) w)).
Proof.
  intros Hcode Hport. split; [|split].
  - exact (connect_tor_dials net info code host port use_ssl dcv TorTrue w
             Hcode Hport ltac:(discriminate)).
  - intros use_tor Htor. split.
    + unfold connect. step.
      destruct (String.eqb_spec code "g") as [->|_]; [congruence|]. simpl.
      rewrite Hport. simpl.
      destruct use_tor; [congruence| |]; reflexivity.
    + destruct (connect_tor_dials net info code host port use_ssl dcv use_tor w
                  Hcode Hport Htor) as [rest Hrest].
      eexists _, rest. split; [exact Hrest|]. simpl. split; [eauto|].
      destruct use_ssl; discriminate.
  - intros use_tor px Htor. unfold connect. step.
    destruct (String.eqb_spec code "g") as [->|_]; [congruence|]. simpl.
    rewrite Hport. simpl.
    destruct use_tor; [congruence| |]; reflexivity.
Qed.

Lemma tor_proxy_policy_witness :
  exists rest,
    trace (snd (connect (fun _ => true) tls_server "s" TorTrue false None
                  init_world))
    = trace init_world ++
      EvDial {| dial_proxy := Some (mkSocks5Addr "localhost" 9150);
                dial_host := "erbium1.sytes.net";
                dial_port := 50002;
                dial_ssl := TlsNoVerify |} :: rest.
Proof.
  refine (proj1 (tor_proxy_policy (fun _ => true) tls_server "s"
                   "erbium1.sytes.net" 50002 true false init_world _ _)).
  - discriminate.
  - reflexivity.
Defined.

(** ** The request registry along any history *)


Lemma sent_ids_puts (item : json) (qs : list ref) :
  sent_ids (map (fun q => EvPut q item) qs) = [].
Proof. induction qs as [|q qs IH]; [reflexivity | exact IH]. Qed.

Ltac untouched :=
  unfold registry_untouched; simpl;
  rewrite ?sent_ids_app, ?sent_ids_puts; cbn;
  rewrite ?app_nil_r; repeat split; auto with lia.

Lemma registry_untouched_consistent (w w' : World) :
  registry_untouched w w' -> consistent w -> consistent w'.
Proof.
  intros (Hnext & Hinf & Hfut & Hfresh & Hsent) [H1 H2 H3 H4 H5 H6].
  constructor; rewrite ?Hnext, ?Hinf, ?Hfut, ?Hsent; auto.
  intros fut Hfu. specialize (H4 fut Hfu). lia.
Qed.

Lemma close_untouched (w : World) : registry_untouched w (snd (close w)).
Proof.
  unfold close. step.
  destruct (protocol (self w)); simpl; destruct (ka_task (self w)); untouched.
Qed.

Lemma connection_lost_untouched (p : ref) (w : World) :
  registry_untouched w (snd (_connection_lost p w)).
Proof.
  unfold _connection_lost. step.
  case_bool_decide; simpl; [untouched|].
  destruct (ka_task (self w)); untouched.
Qed.

Lemma connect_untouched (net : Dial -> bool) (info : ServerInfo)
    (code : string) (use_tor : UseTor) (dcv : bool)
    (proxy : option Socks5Addr) (w : World) :
  registry_untouched w (snd (connect net info code use_tor dcv proxy w)).
Proof.
  unfold connect, dial, new_object. step.
  destruct (String.eqb code "g"); simpl; [untouched|].
  destruct (get_port info code) as [[[host port] use_ssl]|e]; simpl; [|untouched].
  destruct use_tor, proxy; simpl; try solve [untouched];
    match goal with |- context [net ?d] => destruct (net d) end; simpl;
    try solve [untouched];
    destruct (protocol (self w)); untouched.
Qed.

(** What a delivered message can do to the registry: nothing, or remove
    one entry and, if its future is pending, resolve that future. *)
Lemma got_response_effect (msg : message) (w : World) :
  let w' := snd (_got_response msg w) in
  registry_untouched w w'
  \/ exists k req rv,
       inflight (self w) !! k = Some (req, rv)
       /\ inflight (self w') = delete k (inflight (self w))
       /\ next_id (self w') = next_id (self w)
       /\ fresh w' = fresh w
       /\ sent_ids (trace w') = sent_ids (trace w)
       /\ (futures w' = futures w
           \/ exists s, futures w' = <[rv := s]> (futures w)).
Proof.
  unfold _got_response.
  destruct (is_None (msg_get msg "id")).
  - left. destruct (truthy (msg_get msg "method")); simpl; [|untouched].
    unfold subscriptions_get, log, mbind, M_bind, mret, M_ret, gets, raise.
    simpl.
    destruct (as_key (msg_get msg "method")); simpl; try solve [untouched].
    destruct (subscriptions (self w) !! s) as [qs|]; simpl; [|untouched].
    rewrite for_each_put. untouched.
  - step. destruct (msg_has msg "method"); simpl; [left; untouched|].
    unfold inflight_pop. step.
    destruct (as_key (msg_get msg "id")) as [|k|s|]; simpl;
      try solve [left; untouched].
    destruct (inflight (self w) !! k) as [[req rv]|] eqn:Hinf; simpl;
      [|left; untouched].
    right. exists k, req, rv. split; [exact Hinf|].
    unfold set_exception, set_result, resolve.
    destruct (msg !! "error") as [err|]; simpl;
      destruct (futures w !! rv) as [[]|]; simpl;
      rewrite ?sent_ids_app; cbn; rewrite ?app_nil_r;
      repeat split; eauto.
Qed.

Lemma got_response_consistent (msg : message) (w : World) :
  consistent w -> consistent (snd (_got_response msg w)).
Proof.
  intros Hw.
  destruct (got_response_effect msg w) as [Hsame|Hpop].
  { eapply registry_untouched_consistent; eassumption. }
  destruct Hpop as (k & req & rv & Hk & Hinf & Hnext & Hfresh & Hsent & Hfut).
  destruct Hw as [H1 H2 H3 H4 H5 H6].
  assert (Hother : forall k' req' fut',
            delete k (inflight (self w)) !! k' = Some (req', fut') ->
            inflight (self w) !! k' = Some (req', fut') /\ fut' <> rv).
  { intros k' req' fut' Hk'.
    apply lookup_delete_Some in Hk' as [Hne Hk'].
    split; [exact Hk'|]. intros ->. apply Hne. eapply H3; eassumption. }
  constructor; rewrite ?Hnext, ?Hinf, ?Hfresh, ?Hsent; auto.
  - intros k' req' fut' Hk'. destruct (Hother _ _ _ Hk') as [Hold Hne].
    destruct (H2 _ _ _ Hold) as (? & ? & Hpend).
    split; [assumption|]. split; [assumption|].
    destruct Hfut as [->|[s ->]]; [exact Hpend|].
    rewrite lookup_insert_ne by congruence. exact Hpend.
  - intros k1 k2 req1 req2 fut Hk1 Hk2.
    destruct (Hother _ _ _ Hk1) as [Ho1 _]. destruct (Hother _ _ _ Hk2) as [Ho2 _].
    eapply H3; eassumption.
  - intros fut Hsome. apply H4.
    destruct Hfut as [Hf|[s Hf]]; rewrite Hf in Hsome; [exact Hsome|].
    destruct (decide (fut = rv)) as [->|Hne].
    + destruct (H2 _ _ _ Hk) as (_ & _ & Hpend). rewrite Hpend. eauto.
    + rewrite lookup_insert_ne in Hsome by congruence. exact Hsome.
Qed.

Lemma invoke_consistent (c : Call) (w : World) :
  consistent w -> consistent (snd (invoke wire_send c w)).
Proof.
  intros Hw. pose proof (invoke_wire_send c w) as Hc. cbv zeta in Hc.
  destruct (call_ok c); [|rewrite Hc; exact Hw].
  destruct Hc as (Hnext & _ & req & fut & Hreq & Hinf & Hsend & Hfut & Hfresh).
  destruct Hw as [H1 H2 H3 H4 H5 H6].
  assert (Hold : forall k r f, inflight (self w) !! k = Some (r, f) ->
                   k <> next_id (self w) + 1 /\ f <> fut).
  { intros k r f Hk. destruct (H2 _ _ _ Hk) as (_ & Hrange & Hpend).
    split; [lia|]. assert (f < fresh w)%nat by (apply H4; rewrite Hpend; eauto).
    lia. }
  assert (Hcases : forall k r f,
            inflight (self (snd (invoke wire_send c w))) !! k = Some (r, f) ->
            (k = next_id (self w) + 1 /\ r = req /\ f = fut)
            \/ (k <> next_id (self w) + 1 /\ inflight (self w) !! k = Some (r, f))).
  { intros k r f. rewrite Hinf. intros Hk.
    apply lookup_insert_Some in Hk as [[<- Heq]|[Hne Hk]]; [left|right; auto].
    inversion Heq; auto. }
  constructor; rewrite ?Hnext, ?Hfut.
  - lia.
  - intros k r f Hk. destruct (Hcases _ _ _ Hk) as [(-> & -> & ->)|[Hne Hk']].
    + split; [exact Hreq|]. split; [lia|]. apply lookup_insert_eq.
    + destruct (H2 _ _ _ Hk') as (? & ? & Hpend). destruct (Hold _ _ _ Hk').
      split; [assumption|]. split; [lia|].
      rewrite lookup_insert_ne by congruence. exact Hpend.
  - intros k1 k2 r1 r2 f Hk1 Hk2.
    destruct (Hcases _ _ _ Hk1) as [(-> & -> & ->)|[Hne1 Hk1']];
      destruct (Hcases _ _ _ Hk2) as [(-> & -> & Hf)|[Hne2 Hk2']];
      try reflexivity.
    + destruct (Hold _ _ _ Hk2'); congruence.
    + destruct (Hold _ _ _ Hk1'); congruence.
    + eapply H3; eassumption.
  - intros f Hsome. destruct (decide (f = fut)) as [->|Hne]; [lia|].
    rewrite lookup_insert_ne in Hsome by congruence.
    specialize (H4 _ Hsome). lia.
  - rewrite Hsend, sent_ids_app. apply Forall_app. split.
    + eapply Forall_impl; [exact H5|]. simpl. intros; lia.
    + destruct (protocol (self w)); cbn; [|constructor].
      constructor; [lia|constructor].
  - rewrite Hsend, sent_ids_app. apply StronglySorted_app_2; [|exact H6|].
    + intros x1 x2 Hx1 Hx2. rewrite Forall_forall in H5. specialize (H5 _ Hx1).
      destruct (protocol (self w)); cbn in Hx2; [|inversion Hx2].
      apply list_elem_of_singleton in Hx2. lia.
    + destruct (protocol (self w)); cbn; repeat constructor.
Qed.

Lemma init_consistent : consistent init_world.
Proof.
  constructor; simpl.
  - lia.
  - intros k req fut Hk. rewrite lookup_empty in Hk. discriminate.
  - intros k1 k2 req1 req2 fut Hk. rewrite lookup_empty in Hk. discriminate.
  - intros fut [s Hs]. rewrite lookup_empty in Hs. discriminate.
  - constructor.
  - constructor.
Qed.

Lemma perform_consistent (o : Op) (w : World) :
  consistent w -> consistent (perform o w).
Proof.
  intros Hw. destruct o; simpl.
  - eapply registry_untouched_consistent; [apply connect_untouched | exact Hw].
  - apply invoke_consistent, Hw.
  - apply got_response_consistent, Hw.
  - eapply registry_untouched_consistent; [apply connection_lost_untouched | exact Hw].
  - eapply registry_untouched_consistent; [apply close_untouched | exact Hw].
Qed.

(** Whatever callers, protocols and servers have done to a client so far,
    every entry of [inflight] sits under the id its request carries, with a
    future of its own that is still pending, and the ids of the requests
    sent so far are strictly increasing. *)
Lemma reachable_consistent (w : World) : reachable w -> consistent w.
Proof.
  intros [ops ->]. unfold run_ops.
  generalize init_consistent. generalize init_world.
  induction ops as [|o ops IH]; intros w Hw; simpl; [exact Hw|].
  apply IH, perform_consistent, Hw.
Qed.

(** On a client that has only been driven through its own methods, every
    entry of [inflight] has a pending future: a response to an outstanding
    request always resolves it. *)
Lemma reachable_response_resolves (w : World) (msg : message) (k : Z)
    (req : Request) (rv : ref) :
  reachable w ->
  msg !! "id" = Some (JInt k) ->
  msg !! "method" = None ->
  inflight (self w) !! k = Some (req, rv) ->
  fst (_got_response msg w) = Ok tt
  /\ inflight (self (snd (_got_response msg w))) !! k = None
  /\ futures (snd (_got_response msg w)) !! rv
     = Some match msg !! "error" with
            | Some err => Failed (ElectrumErrorResponse err req)
            | None => Fulfilled (msg_get msg "result")
            end.
Proof.
  intros Hreach Hid Hmeth Hinf.
  destruct (inflight_entries w (reachable_consistent w Hreach) k req rv Hinf)
    as (_ & _ & Hpend).
  rewrite (got_response_resolves w msg k req rv Hid Hmeth Hinf Hpend). simpl.
  split; [reflexivity|]. split; [apply lookup_delete_eq | apply lookup_insert_eq].
Qed.

(** X21: over the whole life of a client, whatever happens between two
    requests (responses, notifications, failed calls, lost connections,
    close, reconnects), the ids of the requests handed to a protocol are
    strictly increasing, hence never reused, and start above 1. *)
Lemma reachable_sent_ids_increasing (w : World) :
  reachable w ->
  StronglySorted Z.lt (sent_ids (trace w))
  /\ Forall (fun i => 2 <= i) (sent_ids (trace w)).
Proof.
  intros Hreach. destruct (reachable_consistent w Hreach) as [_ _ _ _ H5 H6].
  split; [exact H6|]. eapply Forall_impl; [exact H5|]. simpl. intros; lia.
Qed.

(** * Further properties of the client *)

(** ** Losing and closing the connection *)



(** The registries across [close], [_connection_lost] and [connect]. *)
Lemma lifecycle_keeps (w : World) (p : ref) (net : Dial -> bool)
    (info : ServerInfo) (code : string) (use_tor : UseTor) (dcv : bool)
    (proxy : option Socks5Addr) :
  forall w',
    w' = snd (close w)
    \/ w' = snd (_connection_lost p w)
    \/ w' = snd (connect net info code use_tor dcv proxy w) ->
    inflight (self w') = inflight (self w)
    /\ subscriptions (self w') = subscriptions (self w)
    /\ next_id (self w') = next_id (self w)
    /\ futures w' = futures w.
Proof.
  intros w' [->|[->| ->]].
  - unfold close. step.
    destruct (protocol (self w)); simpl; destruct (ka_task (self w));
      repeat split.
  - unfold _connection_lost. step.
    case_bool_decide; simpl; [repeat split|].
    destruct (ka_task (self w)); repeat split.
  - unfold connect, dial, new_object. step.
    destruct (String.eqb code "g"); simpl; [repeat split|].
    destruct (get_port info code) as [[[host port] use_ssl]|e]; simpl;
      [|repeat split].
    destruct use_tor, proxy; simpl; try solve [repeat split];
      match goal with |- context [net ?d] => destruct (net d) end; simpl;
      try solve [repeat split];
      destruct (protocol (self w)); repeat split.
Qed.


(** ** Invocations that fail *)

(** X3: an [RPC] or [subscribe] whose method fails the assertions of lines
    211 and 226-227 raises [AssertionError] before anything happens: no id
    is used, nothing is registered or sent, whatever the protocol. *)
Theorem invalid_method_rejected (send_data : ref -> Request -> M unit)
    (c : Call) (w : World) :
  call_ok c = false ->
  invoke send_data c w = (Raise (AssertionError ""), w).
Proof.
  intros Hbad. destruct c as [method params | method params]; simpl in *;
    unfold RPC, subscribe; step.
  - rewrite Hbad. reflexivity.
  - destruct (str_contains "." method); simpl in *; [|reflexivity].
    rewrite Hbad. reflexivity.
Qed.

Lemma invalid_method_rejected_witness :
  invoke wire_send (CallSubscribe "server.version" []) connected_world
  = (Raise (AssertionError ""), connected_world).
Proof.
  exact (invalid_method_rejected wire_send (CallSubscribe "server.version" [])
           connected_world eq_refl).
Defined.

(** X4: an invocation on a client without a protocol (never connected,
    closed, or connection lost) raises [AttributeError] only at line 146,
    after the bookkeeping: the id is used up, the request sits in
    [inflight] with a pending future nobody was handed, and for a
    [subscribe] the new queue is already a channel of the method.  Nothing
    is sent. *)
Theorem call_without_protocol_registers_request
    (send_data : ref -> Request -> M unit) (c : Call) (w : World) :
  protocol (self w) = None ->
  call_ok c = true ->
  let r := invoke send_data c w in
  fst r = Raise (AttributeError "'NoneType' object has no attribute 'send_data'")
  /\ next_id (self (snd r)) = next_id (self w) + 1
  /\ (exists req fut,
        req_id req = next_id (self w) + 1
        /\ inflight (self (snd r)) !! (next_id (self w) + 1) = Some (req, fut)
        /\ futures (snd r) !! fut = Some Pending)
  /\ trace (snd r) = trace w
  /\ (forall method params,
        c = CallSubscribe method params ->
        subscriptions (self (snd r)) !! method
        = Some (default [] (subscriptions (self w) !! method) ++ [fresh w])).
Proof.
  intros Hp Hok r. subst r.
  destruct c as [method params | method params]; simpl in *;
    unfold RPC, subscribe, _send_request, subscriptions_append, new_object,
      new_future; step.
  - rewrite Hok. simpl. rewrite Hp. simpl.
    split; [reflexivity|]. split; [reflexivity|]. split.
    + eexists _, _. split; [|split; apply lookup_insert_eq]. reflexivity.
    + split; [reflexivity|]. intros m ps Hc. discriminate.
  - apply andb_prop in Hok as [Hdot Hsuffix]. rewrite Hdot, Hsuffix. simpl.
    rewrite Hp. simpl.
    split; [reflexivity|]. split; [reflexivity|]. split.
    + eexists _, _. split; [|split; apply lookup_insert_eq]. reflexivity.
    + split; [reflexivity|]. intros m ps Hc. inversion Hc; subst.
      apply lookup_insert_eq.
Qed.

Lemma call_without_protocol_registers_request_witness :
  fst (invoke wire_send (CallRPC "server.version" []) init_world)
  = Raise (AttributeError "'NoneType' object has no attribute 'send_data'").
Proof.
  exact (proj1 (call_without_protocol_registers_request wire_send
                  (CallRPC "server.version" []) init_world eq_refl eq_refl)).
Defined.

(** ** connect *)

(** X5: without Tor, once the protocol code is accepted and the server
    record has answered, [connect] dials the server's host and port through
    the caller's proxy if one is given and directly otherwise; TLS is off
    when the server record says so (whatever [disable_cert_verify]), and
    otherwise verified unless [disable_cert_verify] is set. *)
Theorem connect_tls_policy (net : Dial -> bool) (info : ServerInfo)
    (code host : string) (port : Z) (use_ssl dcv : bool)
    (proxy : option Socks5Addr) (w : World) :
  code <> "g"%string ->
  get_port info code = Ok (host, port, use_ssl) ->
  exists rest,
    trace (snd (connect net info code TorFalse dcv proxy w))
    = trace w ++
      EvDial {| dial_proxy := proxy;
                dial_host := host;
                dial_port := port;
                dial_ssl := if use_ssl
                            then (if dcv then TlsNoVerify else TlsVerify)
                            else TlsOff |} :: rest.
Proof.
  intros Hcode Hport.
  unfold connect, dial, new_object. step.
  destruct (String.eqb_spec code "g") as [->|_]; [congruence|]. simpl.
  rewrite Hport. simpl.
  destruct use_ssl, dcv; simpl;
    match goal with |- context [net ?d] => destruct (net d) end; simpl;
    try (destruct (protocol (self w)); simpl);
    eexists; rewrite <- ?app_assoc; simpl; reflexivity.
Qed.

Lemma connect_tls_policy_witness :
  exists rest,
    trace (snd (connect (fun _ => true) tls_server "s" TorFalse false None
                  init_world))
    = trace init_world ++
      EvDial {| dial_proxy := None;
                dial_host := "erbium1.sytes.net";
                dial_port := 50002;
                dial_ssl := TlsVerify |} :: rest.
Proof.
  refine (connect_tls_policy (fun _ => true) tls_server "s"
            "erbium1.sytes.net" 50002 true false None init_world _ _).
  - discriminate.
  - reflexivity.
Defined.

(** What [connect] did when it returned normally. *)
Lemma connect_ok_trace (net : Dial -> bool) (info : ServerInfo)
    (code : string) (use_tor : UseTor) (dcv : bool)
    (proxy : option Socks5Addr) (w : World) :
  fst (connect net info code use_tor dcv proxy w) = Ok tt ->
  let w' := snd (connect net info code use_tor dcv proxy w) in
  protocol (self w') = Some (fresh w)
  /\ ka_task (self w') = Some (S (fresh w))
  /\ exists d,
       trace w' = trace w ++
         EvDial d
         :: match protocol (self w) with
            | Some old => [EvClose old]
            | None => []
            end
         ++ [EvAttach (fresh w); EvKeepalive (S (fresh w));
             EvLog DEBUG "Connected to: %r" LogServer].
Proof.
  unfold connect, dial, new_object. step.
  destruct (String.eqb code "g"); simpl; [discriminate|].
  destruct (get_port info code) as [[[host port] use_ssl]|e]; simpl;
    [|discriminate].
  destruct use_tor, proxy; simpl; try discriminate;
    match goal with |- context [net ?d] => destruct (net d) end; simpl;
    try discriminate;
    destruct (protocol (self w)); simpl; intros _;
    (split; [reflexivity|]; split; [reflexivity|]);
    eexists; rewrite <- ?app_assoc; simpl; reflexivity.
Qed.

(** X6: whenever [connect] returns normally, the new protocol is
    installed and a new keep-alive task is recorded in [ka_task].  What it
    did, in order: one dial; then [close()] on the protocol installed
    before, if there was one; then attaching the client to the new
    protocol, creating the keep-alive task, and one debug line.  It cancels
    no task: the keep-alive task of the connection it replaces keeps
    running and is no longer known to the client. *)
Theorem connect_installs_new_connection (net : Dial -> bool)
    (info : ServerInfo) (code : string) (use_tor : UseTor) (dcv : bool)
    (proxy : option Socks5Addr) (w : World) :
  fst (connect net info code use_tor dcv proxy w) = Ok tt ->
  let w' := snd (connect net info code use_tor dcv proxy w) in
  protocol (self w') = Some (fresh w)
  /\ ka_task (self w') = Some (S (fresh w))
  /\ (exists d,
        new_events w w'
        = EvDial d
          :: match protocol (self w) with
             | Some old => [EvClose old]
             | None => []
             end
          ++ [EvAttach (fresh w); EvKeepalive (S (fresh w));
              EvLog DEBUG "Connected to: %r" LogServer])
  /\ (forall t, EvCancel t ∉ new_events w w').
Proof.
  intros Hok w'.
  destruct (connect_ok_trace net info code use_tor dcv proxy w Hok)
    as (Hp & Hka & d & Htr).
  fold w' in Hp, Hka, Htr.
  assert (Hnew : new_events w w'
                 = EvDial d
                   :: match protocol (self w) with
                      | Some old => [EvClose old]
                      | None => []
                      end
                   ++ [EvAttach (fresh w); EvKeepalive (S (fresh w));
                       EvLog DEBUG "Connected to: %r" LogServer]).
  { unfold new_events. rewrite Htr, drop_app_length. reflexivity. }
  split; [exact Hp|]. split; [exact Hka|]. split; [eauto|].
  intros t Hin. rewrite Hnew in Hin.
  destruct (protocol (self w)); simpl in Hin;
    repeat (apply elem_of_cons in Hin as [Hin|Hin]; [discriminate|]);
    inversion Hin.
Qed.

Lemma connect_installs_new_connection_witness :
  protocol (self (snd (connect (fun _ => true) tls_server "s" TorTrue false
                         None connected_world)))
  = Some 2%nat.
Proof.
  exact (proj1 (connect_installs_new_connection (fun _ => true) tls_server "s"
                  TorTrue false None connected_world eq_refl)).
Defined.

(** X7: whenever [connect] raises, for whatever reason, the connection
    the client had is left alone: [protocol] and [ka_task] are as before and
    the only thing that can have happened outside the client is one dial.
    Yet [server_info] and [proto_code] already name the destination of the
    failed attempt. *)
Theorem connect_failure_keeps_connection (net : Dial -> bool)
    (info : ServerInfo) (code : string) (use_tor : UseTor) (dcv : bool)
    (proxy : option Socks5Addr) (w : World) (e : exn) :
  fst (connect net info code use_tor dcv proxy w) = Raise e ->
  let w' := snd (connect net info code use_tor dcv proxy w) in
  protocol (self w') = protocol (self w)
  /\ ka_task (self w') = ka_task (self w)
  /\ fresh w' = fresh w
  /\ (new_events w w' = [] \/ exists d, new_events w w' = [EvDial d])
  /\ server_info (self w') = Some info
  /\ proto_code (self w') = Some code.
Proof.
  unfold new_events, connect, dial, new_object. step.
  destruct (String.eqb code "g"); simpl.
  { intros _. rewrite drop_all. repeat split; auto. }
  destruct (get_port info code) as [[[host port] use_ssl]|e']; simpl.
  2: { intros _. rewrite drop_all. repeat split; auto. }
  destruct use_tor, proxy; simpl;
    try (intros _; rewrite drop_all; repeat split; auto; fail);
    match goal with |- context [net ?d] => destruct (net d) end; simpl;
    try (destruct (protocol (self w)); simpl; discriminate);
    intros _; rewrite drop_app_length; repeat split; eauto.
Qed.

Lemma connect_failure_keeps_connection_witness :
  protocol (self (snd (connect (fun _ => false) tls_server "s" TorFalse false
                         None connected_world)))
  = protocol (self connected_world).
Proof.
  exact (proj1 (connect_failure_keeps_connection (fun _ => false) tls_server
                  "s" TorFalse false None connected_world OSError eq_refl)).
Defined.



(** X9: with [use_tor] given as a [(host, port)] pair and no proxy, the
    connection is dialled through SOCKS5 at that very address, with TLS
    unverified or off. *)
Theorem connect_tor_explicit_address (net : Dial -> bool) (info : ServerInfo)
    (code host tor_host : string) (port tor_port : Z) (use_ssl dcv : bool)
    (w : World) :
  code <> "g"%string ->
  get_port info code = Ok (host, port, use_ssl) ->
  exists rest,
    trace (snd (connect net info code (TorAddr tor_host tor_port) dcv None w))
    = trace w ++
      EvDial {| dial_proxy := Some (mkSocks5Addr tor_host tor_port);
                dial_host := host;
                dial_port := port;
                dial_ssl := if use_ssl then TlsNoVerify else TlsOff |} :: rest.
Proof.
  intros Hcode Hport.
  exact (connect_tor_dials net info code host port use_ssl dcv
           (TorAddr tor_host tor_port) w Hcode Hport ltac:(discriminate)).
Qed.

Lemma connect_tor_explicit_address_witness :
  exists rest,
    trace (snd (connect (fun _ => true) tls_server "s"
                  (TorAddr "127.0.0.1" 9050) false None init_world))
    = trace init_world ++
      EvDial {| dial_proxy := Some (mkSocks5Addr "127.0.0.1" 9050);
                dial_host := "erbium1.sytes.net";
                dial_port := 50002;
                dial_ssl := TlsNoVerify |} :: rest.
Proof.
  refine (connect_tor_explicit_address (fun _ => true) tls_server "s"
            "erbium1.sytes.net" "127.0.0.1" 50002 9050 true false init_world
            _ _).
  - discriminate.
  - reflexivity.
Defined.

(** [connect] is its two stretches around the dial. *)
Lemma connect_stretches (net : Dial -> bool) (info : ServerInfo)
    (code : string) (use_tor : UseTor) (dcv : bool)
    (proxy : option Socks5Addr) (w : World) :
  connect net info code use_tor dcv proxy w
  = (d ← connect_prepare info code use_tor dcv proxy;
     proto ← dial net d;
     connect_install proto) w.
Proof.
  unfold connect, connect_prepare, connect_install, dial, new_object. step.
  destruct (String.eqb code "g"); simpl; [reflexivity|].
  destruct (get_port info code) as [[[host port] use_ssl]|e]; simpl;
    [|reflexivity].
  destruct use_tor, proxy; simpl; try reflexivity;
    match goal with |- context [net ?d] => destruct (net d) end; reflexivity.
Qed.

(** X10: a [close()] that runs while [connect] is suspended in its await,
    the new connection being already made, closes and forgets only the old
    connection.  When [connect] is resumed it installs the new protocol and
    starts a keep-alive task all the same, without closing anything: the
    client ends up connected although [close()] was called last.  (The
    first conjunct ties the two stretches to [connect] itself.) *)
Theorem close_during_connect_is_overridden (net : Dial -> bool)
    (info : ServerInfo) (code : string) (use_tor : UseTor) (dcv : bool)
    (proxy : option Socks5Addr) (w w1 : World) (d : Dial) :
  connect_prepare info code use_tor dcv proxy w = (Ok d, w1) ->
  net d = true ->
  let proto := fresh w1 in
  let w2 := snd (dial net d w1) in
  let w3 := snd (close w2) in
  (forall w0,
     connect net info code use_tor dcv proxy w0
     = (d' ← connect_prepare info code use_tor dcv proxy;
        p ← dial net d';
        connect_install p) w0)
  /\ fst (dial net d w1) = Ok proto
  /\ protocol (self w3) = None
  /\ connect_install proto w3
     = (Ok tt,
        {| self := set_ka_task (Some (S proto))
                     (set_protocol (Some proto) (self w3));
           futures := futures w3;
           fresh := S (S proto);
           trace := trace w3 ++
             [EvAttach proto; EvKeepalive (S proto);
              EvLog DEBUG "Connected to: %r" LogServer] |}).
Proof.
  intros _ Hnet proto w2 w3. subst proto w2 w3.
  split; [intros w0; apply connect_stretches|].
  unfold dial, new_object, close, connect_install. step. rewrite Hnet. simpl.
  split; [reflexivity|].
  destruct w1 as [[[old|] n infl subs [t|] info' code'] futs fr tr]; simpl;
    unfold emit, with_self; simpl; rewrite <- ?app_assoc; simpl;
    split; reflexivity.
Qed.

Lemma close_during_connect_is_overridden_witness :
  let w1 := snd (connect_prepare tls_server "s" TorFalse false None
                   connected_world) in
  protocol (self (snd (connect_install (fresh w1)
                         (snd (close (snd (dial (fun _ => true)
                            {| dial_proxy := None;
                               dial_host := "erbium1.sytes.net";
                               dial_port := 50002;
                               dial_ssl := TlsVerify |} w1)))))))
  = Some 2%nat.
Proof.
  exact (f_equal (fun r => protocol (self (snd r)))
           (proj2 (proj2 (proj2
              (close_during_connect_is_overridden (fun _ => true) tls_server
                 "s" TorFalse false None connected_world _ _
                 eq_refl eq_refl))))).
Defined.

(** ** A call and its response *)

(** What [RPC] does on a client with a protocol that only writes. *)
Lemma rpc_wire (method : string) (params : list json) (w : World) (p : ref) :
  protocol (self w) = Some p ->
  str_contains "."%char method = true ->
  RPC wire_send method params w
  = (Ok (Fut (fresh w)),
     {| self :=
          set_inflight
            (<[next_id (self w) + 1 :=
                 (mkRequest (next_id (self w) + 1) method params, fresh w)]>
               (inflight (self w)))
            (set_next_id (next_id (self w) + 1) (self w));
        futures := <[fresh w := Pending]> (futures w);
        fresh := S (fresh w);
        trace := trace w ++
          [EvSend p (mkRequest (next_id (self w) + 1) method params)] |}).
Proof.
  intros Hp Hdot.
  unfold RPC, _send_request, new_future, wire_send. step.
  rewrite Hdot. simpl. rewrite Hp. reflexivity.
Qed.

(** X11: on a connected client, [RPC] returns a new pending future and
    sends one request carrying the next id, the method and the parameters;
    [subscriptions] is not touched, whatever the method's name.  When the
    response with that id arrives, the dispatcher returns normally and the
    future handed to the caller holds the response's result, or
    [ElectrumErrorResponse] with the server's error and exactly the request
    that was sent; the entry is gone from [inflight] (which is back to what
    it was if that id was free), and no other future has changed. *)
Theorem rpc_round_trip (method : string) (params : list json)
    (msg : message) (w : World) (p : ref) :
  protocol (self w) = Some p ->
  str_contains "."%char method = true ->
  msg !! "id" = Some (JInt (next_id (self w) + 1)) ->
  msg !! "method" = None ->
  let req := mkRequest (next_id (self w) + 1) method params in
  let w1 := snd (RPC wire_send method params w) in
  let w2 := snd (_got_response msg w1) in
  fst (RPC wire_send method params w) = Ok (Fut (fresh w))
  /\ new_events w w1 = [EvSend p req]
  /\ futures w1 !! fresh w = Some Pending
  /\ subscriptions (self w1) = subscriptions (self w)
  /\ fst (_got_response msg w1) = Ok tt
  /\ futures w2 !! fresh w
     = Some match msg !! "error" with
            | Some err => Failed (ElectrumErrorResponse err req)
            | None => Fulfilled (msg_get msg "result")
            end
  /\ inflight (self w2) = delete (next_id (self w) + 1) (inflight (self w))
  /\ (inflight (self w) !! (next_id (self w) + 1) = None ->
      inflight (self w2) = inflight (self w))
  /\ (forall fut, fut <> fresh w -> futures w2 !! fut = futures w !! fut).
Proof.
  intros Hp Hdot Hid Hmeth req w1 w2. subst w2 w1.
  rewrite (rpc_wire method params w p Hp Hdot). cbn [fst snd].
  split; [reflexivity|]. split.
  { unfold new_events. simpl. rewrite drop_app_length. reflexivity. }
  split; [simpl; apply lookup_insert_eq|]. split; [reflexivity|].
  erewrite got_response_resolves;
    [ | exact Hid | exact Hmeth
      | simpl; apply lookup_insert_eq | simpl; apply lookup_insert_eq ].
  cbn [fst snd]. split; [reflexivity|]. simpl.
  split; [apply lookup_insert_eq|]. split; [apply delete_insert_eq|]. split.
  - intros Hfree. apply delete_insert_id, Hfree.
  - intros fut Hne. rewrite !lookup_insert_ne by congruence. reflexivity.
Qed.

Lemma rpc_round_trip_witness :
  futures (snd (_got_response {[ "id" := JInt 2; "result" := JStr "1.4" ]}
                  (snd (RPC wire_send "server.version" [] connected_world))))
    !! 2%nat
  = Some (Fulfilled (JStr "1.4")).
Proof.
  pose proof (rpc_round_trip "server.version" []
                {[ "id" := JInt 2; "result" := JStr "1.4" ]}
                connected_world 0%nat eq_refl eq_refl eq_refl eq_refl)
    as (_ & _ & _ & _ & _ & Hfut & _).
  exact Hfut.
Defined.

(** ** Subscriptions and notifications *)

(** What [subscribe] does on a client with a protocol that only writes. *)
Lemma subscribe_wire (method : string) (params : list json) (w : World)
    (p : ref) :
  protocol (self w) = Some p ->
  str_contains "."%char method = true ->
  str_endswith method "subscribe" = true ->
  subscribe wire_send method params w
  = (Ok (FutQ (S (fresh w)) (fresh w)),
     {| self :=
          set_inflight
            (<[next_id (self w) + 1 :=
                 (mkRequest (next_id (self w) + 1) method params, S (fresh w))]>
               (inflight (self w)))
            (set_subscriptions
               (<[method := default [] (subscriptions (self w) !! method)
                            ++ [fresh w]]> (subscriptions (self w)))
               (set_next_id (next_id (self w) + 1) (self w)));
        futures := <[S (fresh w) := Pending]> (futures w);
        fresh := S (S (fresh w));
        trace := trace w ++
          [EvSend p (mkRequest (next_id (self w) + 1) method params)] |}).
Proof.
  intros Hp Hdot Hsuffix.
  unfold subscribe, _send_request, subscriptions_append, new_object,
    new_future, wire_send. step.
  rewrite Hdot, Hsuffix. simpl. rewrite Hp. reflexivity.
Qed.

(** X12: two [subscribe] calls for the same method give two different
    queues, each with a future and a request id of its own; both queues are
    channels of the method, after the channels it already had and in the
    order of the calls, and the channels of other methods are as before. *)
Theorem two_subscriptions_two_channels (method : string)
    (params1 params2 : list json) (w : World) (p : ref) :
  protocol (self w) = Some p ->
  str_contains "."%char method = true ->
  str_endswith method "subscribe" = true ->
  let r1 := subscribe wire_send method params1 w in
  let r2 := subscribe wire_send method params2 (snd r1) in
  let q1 := fresh w in
  let q2 := S (S (fresh w)) in
  fst r1 = Ok (FutQ (S q1) q1)
  /\ fst r2 = Ok (FutQ (S q2) q2)
  /\ q1 <> q2
  /\ subscriptions (self (snd r2)) !! method
     = Some (default [] (subscriptions (self w) !! method) ++ [q1; q2])
  /\ (forall other, other <> method ->
        subscriptions (self (snd r2)) !! other
        = subscriptions (self w) !! other)
  /\ sent_ids (new_events w (snd r2))
     = [next_id (self w) + 1; next_id (self w) + 2].
Proof.
  intros Hp Hdot Hsuffix r1 r2 q1 q2. subst r2 r1 q1 q2.
  rewrite (subscribe_wire method params1 w p Hp Hdot Hsuffix). cbn [fst snd].
  erewrite (subscribe_wire method params2);
    [ | exact Hp | exact Hdot | exact Hsuffix ].
  cbn [fst snd]. simpl.
  split; [reflexivity|]. split; [reflexivity|]. split; [lia|]. split.
  - rewrite lookup_insert_eq, lookup_insert_eq. simpl.
    rewrite <- app_assoc. reflexivity.
  - split.
    + intros other Hne. rewrite !lookup_insert_ne by congruence. reflexivity.
    + unfold new_events. simpl. rewrite <- app_assoc, drop_app_length. cbn.
      do 2 f_equal. lia.
Qed.

Lemma two_subscriptions_two_channels_witness :
  subscriptions
    (self (snd (subscribe wire_send "server.peers.subscribe" []
                  (snd (subscribe wire_send "server.peers.subscribe" []
                          connected_world)))))
    !! "server.peers.subscribe"%string
  = Some [2%nat; 4%nat].
Proof.
  exact (proj1 (proj2 (proj2 (proj2
           (two_subscriptions_two_channels "server.peers.subscribe" [] []
              connected_world 0%nat eq_refl eq_refl eq_refl))))).
Defined.

(** X13: a message without an id (no [id] key, or a null one) whose
    [method] is a non-empty string with channels is broadcast: the value
    under [params] ([None] when the key is missing; a [result] key is
    ignored) is put once on every channel of that method, in registration
    order, after one debug line.  Nothing is put on any other queue and the
    client and the futures are as before. *)
Theorem notification_broadcast (msg : message) (method : string)
    (qs : list ref) (w : World) :
  msg_get msg "id" = JNull ->
  msg_get msg "method" = JStr method ->
  method <> ""%string ->
  subscriptions (self w) !! method = Some qs ->
  _got_response msg w
  = (Ok tt,
     {| self := self w; futures := futures w; fresh := fresh w;
        trace := trace w ++
          EvLog DEBUG "Traffic on subscription: %s" (LogJson (JStr method))
          :: map (fun q => EvPut q (msg_get msg "params")) qs |}).
Proof.
  intros Hid Hmeth Hne Hsub.
  unfold _got_response. cbv zeta. rewrite Hid, Hmeth. simpl.
  destruct (String.eqb_spec method "") as [->|_]; [congruence|]. simpl.
  unfold subscriptions_get, log, mbind, M_bind, gets. simpl. rewrite Hsub.
  rewrite for_each_put. simpl. rewrite <- app_assoc. reflexivity.
Qed.

Lemma notification_broadcast_witness :
  let w2 := run_calls [CallSubscribe "server.peers.subscribe" [];
                       CallSubscribe "server.peers.subscribe" []]
              connected_world in
  _got_response {[ "id" := JNull; "method" := JStr "server.peers.subscribe";
                   "result" := JInt 0; "params" := JArr [JInt 9] ]} w2
  = (Ok tt,
     {| self := self w2; futures := futures w2; fresh := fresh w2;
        trace := trace w2 ++
          [EvLog DEBUG "Traffic on subscription: %s"
             (LogJson (JStr "server.peers.subscribe"));
           EvPut 2%nat (JArr [JInt 9]); EvPut 4%nat (JArr [JInt 9])] |}).
Proof.
  refine (notification_broadcast _ "server.peers.subscribe" [2%nat; 4%nat]
            _ _ _ _ _).
  - reflexivity.
  - reflexivity.
  - discriminate.
  - reflexivity.
Defined.

(** X14: a message without an id whose [method] is missing or falsy
    ([None], the empty string, 0, [False], an empty list or dict) is logged
    as an error and dropped: the dispatcher returns normally and nothing
    else changes. *)
Theorem message_without_method_dropped (msg : message) (w : World) :
  msg_get msg "id" = JNull ->
  truthy (msg_get msg "method") = false ->
  _got_response msg w
  = (Ok tt,
     {| self := self w; futures := futures w; fresh := fresh w;
        trace := trace w ++
          [EvLog ERROR "Incoming server message had no ID nor method in it"
             (LogMsg msg)] |}).
Proof.
  intros Hid Hmeth. unfold _got_response. cbv zeta.
  rewrite Hid, Hmeth. reflexivity.
Qed.

Lemma message_without_method_dropped_witness :
  _got_response {[ "id" := JNull; "method" := JStr "" ]} pending7
  = (Ok tt,
     {| self := self pending7; futures := futures pending7;
        fresh := fresh pending7;
        trace := trace pending7 ++
          [EvLog ERROR "Incoming server message had no ID nor method in it"
             (LogMsg {[ "id" := JNull; "method" := JStr "" ]})] |}).
Proof.
  exact (message_without_method_dropped
           {[ "id" := JNull; "method" := JStr "" ]} pending7 eq_refl eq_refl).
Defined.

(** A message without an id leaves the client and the futures alone. *)
Lemma message_without_id_keeps_client_aux (msg : message) (w : World) :
  msg_get msg "id" = JNull ->
  self (snd (_got_response msg w)) = self w
  /\ futures (snd (_got_response msg w)) = futures w.
Proof.
  intros Hid. unfold _got_response. cbv zeta. rewrite Hid. simpl.
  destruct (truthy (msg_get msg "method")); simpl; [|split; reflexivity].
  unfold subscriptions_get, log, mbind, M_bind, mret, M_ret, gets, raise.
  simpl.
  destruct (as_key (msg_get msg "method")); simpl; try (split; reflexivity).
  destruct (subscriptions (self w) !! s) as [qs|]; simpl;
    [|split; reflexivity].
  rewrite for_each_put. split; reflexivity.
Qed.



(** ** Responses and the other requests *)

(** What a message with an id can change: nothing but the trace, or the
    entry under its id and possibly that entry's future. *)
Lemma got_response_with_id (msg : message) (w : World) :
  msg_get msg "id" <> JNull ->
  let w' := snd (_got_response msg w) in
  (self w' = self w /\ futures w' = futures w)
  \/ exists k req rv,
       as_key (msg_get msg "id") = IntKey k
       /\ inflight (self w) !! k = Some (req, rv)
       /\ self w' = set_inflight (delete k (inflight (self w))) (self w)
       /\ (futures w' = futures w
           \/ exists s, futures w !! rv = Some Pending
                        /\ futures w' = <[rv := s]> (futures w)).
Proof.
  intros Hid. unfold _got_response. cbv zeta.
  destruct (msg_get msg "id") eqn:Hv; [congruence| | | | |]; step;
    (destruct (msg_has msg "method"); simpl; [left; split; reflexivity|]);
    unfold inflight_pop; step; try (left; split; reflexivity);
    match goal with
    | |- context [inflight (self w) !! ?z] =>
        destruct (inflight (self w) !! z) as [[req rv]|] eqn:Hinf;
        simpl; [|left; split; reflexivity];
        right; exists z, req, rv
    end;
    (split; [reflexivity|]); (split; [exact Hinf|]);
    unfold set_exception, set_result, resolve;
    destruct (msg !! "error") as [err|]; simpl;
    destruct (futures w !! rv) as [[]|] eqn:Hrv; simpl;
    split; try reflexivity; eauto.
Qed.

(** What any message can change. *)
Lemma got_response_cases (msg : message) (w : World) :
  let w' := snd (_got_response msg w) in
  (self w' = self w /\ futures w' = futures w)
  \/ exists k req rv,
       as_key (msg_get msg "id") = IntKey k
       /\ inflight (self w) !! k = Some (req, rv)
       /\ self w' = set_inflight (delete k (inflight (self w))) (self w)
       /\ (futures w' = futures w
           \/ exists s, futures w !! rv = Some Pending
                        /\ futures w' = <[rv := s]> (futures w)).
Proof.
  destruct (msg_get msg "id") eqn:Hid;
    [ left; apply message_without_id_keeps_client_aux, Hid | .. ];
    rewrite <- Hid; apply got_response_with_id; rewrite Hid; discriminate.
Qed.

(** X16: whatever message is delivered and however the dispatcher ends,
    the entries of [inflight] under ids other than the message's own are as
    before, a future changes only if it is the one registered under the
    message's id, and [subscriptions], [next_id], [protocol] and [ka_task]
    are as before. *)
Theorem response_leaves_other_calls (msg : message) (w : World) :
  let w' := snd (_got_response msg w) in
  (forall k, as_key (msg_get msg "id") <> IntKey k ->
     inflight (self w') !! k = inflight (self w) !! k)
  /\ (forall fut,
        (forall k req, as_key (msg_get msg "id") = IntKey k ->
           inflight (self w) !! k <> Some (req, fut)) ->
        futures w' !! fut = futures w !! fut)
  /\ subscriptions (self w') = subscriptions (self w)
  /\ next_id (self w') = next_id (self w)
  /\ protocol (self w') = protocol (self w)
  /\ ka_task (self w') = ka_task (self w).
Proof.
  intros w'. subst w'.
  destruct (got_response_cases msg w)
    as [[Hself Hfut]|(k & req & rv & Hkey & Hinf & Hself & Hfut)];
    rewrite Hself.
  - rewrite Hfut. repeat split.
  - split; [|split; [|repeat split]].
    + intros k' Hk'. simpl. apply lookup_delete_ne. congruence.
    + intros fut Hother. destruct Hfut as [->|(s & _ & ->)]; [reflexivity|].
      apply lookup_insert_ne. intros ->. eapply Hother; eauto.
Qed.

(** X17: a response for an outstanding request whose future is no longer
    pending (the caller cancelled it, say) makes the dispatcher raise
    [InvalidStateError]; the entry has been removed from [inflight] all the
    same (and the error line logged, if the response has an [error] key), and
    no future has changed. *)
Theorem response_to_settled_future (w : World) (msg : message) (k : Z)
    (req : Request) (rv : ref) :
  msg !! "id" = Some (JInt k) ->
  msg !! "method" = None ->
  inflight (self w) !! k = Some (req, rv) ->
  futures w !! rv <> Some Pending ->
  _got_response msg w
  = (Raise InvalidStateError,
     {| self := set_inflight (delete k (inflight (self w))) (self w);
        futures := futures w;
        fresh := fresh w;
        trace :=
          trace w ++
          match msg !! "error" with
          | Some err => [EvLog INFO "Error response: '%s'" (LogJson err)]
          | None => []
          end |}).
Proof.
  intros Hid Hmeth Hinf Hfut.
  unfold _got_response, msg_get, msg_has. rewrite Hid, Hmeth. simpl.
  unfold inflight_pop. step. rewrite Hinf. simpl.
  unfold set_exception, set_result, resolve.
  destruct (msg !! "error") as [err|]; simpl;
    destruct (futures w !! rv) as [[]|]; simpl;
    rewrite ?app_nil_r; try reflexivity; congruence.
Qed.

Lemma response_to_settled_future_witness :
  let cancelled7 :=
    {| self := self pending7; futures := {[ 1%nat := Cancelled ]};
       fresh := 2%nat; trace := [] |} in
  _got_response result7 cancelled7
  = (Raise InvalidStateError,
     {| self := set_inflight ∅ (self pending7);
        futures := {[ 1%nat := Cancelled ]};
        fresh := 2%nat;
        trace := [] |}).
Proof.
  refine (response_to_settled_future _ result7 7
            (mkRequest 7 "server.version" []) 1%nat _ _ _ _).
  - reflexivity.
  - reflexivity.
  - reflexivity.
  - discriminate.
Defined.

(** X18: a response whose id is not a number never matches a request: a
    string id (even one that spells an outstanding id) raises [KeyError], a
    list or dict id raises [TypeError], and in both cases the world is left
    as it was. *)
Theorem non_integer_id_never_matches (msg : message) (v : json) (w : World) :
  msg !! "id" = Some v ->
  msg !! "method" = None ->
  (forall s, v = JStr s ->
     _got_response msg w = (Raise (KeyError (JStr s)), w))
  /\ (as_key v = Unhashable ->
      _got_response msg w = (Raise (TypeError "unhashable type"), w)).
Proof.
  intros Hid Hmeth. split.
  - intros s ->. unfold _got_response, msg_get, msg_has.
    rewrite Hid, Hmeth. reflexivity.
  - intros Hkey. unfold _got_response, msg_get, msg_has.
    rewrite Hid, Hmeth. simpl.
    destruct v; try discriminate; reflexivity.
Qed.

Lemma non_integer_id_never_matches_witness :
  _got_response {[ "id" := JStr "7"; "result" := JInt 42 ]} pending7
  = (Raise (KeyError (JStr "7")), pending7).
Proof.
  exact (proj1 (non_integer_id_never_matches
                  {[ "id" := JStr "7"; "result" := JInt 42 ]} (JStr "7")
                  pending7 eq_refl eq_refl) "7"%string eq_refl).
Defined.

(** ** Along any history *)

Lemma invoke_subscriptions_grow (c : Call) (w : World) (method : string)
    (qs : list ref) :
  subscriptions (self w) !! method = Some qs ->
  exists more,
    subscriptions (self (snd (invoke wire_send c w))) !! method
    = Some (qs ++ more).
Proof.
  intros Hqs.
  destruct c as [m ps | m ps]; simpl;
    unfold RPC, subscribe, _send_request, subscriptions_append, new_object,
      new_future, wire_send; step.
  - exists []. rewrite app_nil_r.
    destruct (str_contains "." m); simpl; [|exact Hqs].
    destruct (protocol (self w)); simpl; exact Hqs.
  - destruct (str_contains "." m); simpl;
      [|exists []; rewrite app_nil_r; exact Hqs].
    destruct (str_endswith m "subscribe"); simpl;
      [|exists []; rewrite app_nil_r; exact Hqs].
    destruct (decide (m = method)) as [->|Hne].
    + exists [fresh w].
      destruct (protocol (self w)); simpl;
        rewrite lookup_insert_eq, Hqs; reflexivity.
    + exists []. rewrite app_nil_r.
      destruct (protocol (self w)); simpl;
        rewrite lookup_insert_ne by exact Hne; exact Hqs.
Qed.

Lemma perform_subscriptions_grow (o : Op) (w : World) (method : string)
    (qs : list ref) :
  subscriptions (self w) !! method = Some qs ->
  exists more,
    subscriptions (self (perform o w)) !! method = Some (qs ++ more).
Proof.
  intros Hqs. destruct o as [net info code tor dcv proxy|c|msg|p|]; simpl.
  - exists []. rewrite app_nil_r.
    destruct (lifecycle_keeps w 0%nat net info code tor dcv proxy _
                (or_intror (or_intror eq_refl))) as (_ & -> & _). exact Hqs.
  - apply invoke_subscriptions_grow, Hqs.
  - exists []. rewrite app_nil_r.
    destruct (got_response_cases msg w)
      as [[-> _]|(k & req & rv & _ & _ & -> & _)]; exact Hqs.
  - exists []. rewrite app_nil_r.
    destruct (lifecycle_keeps w p (fun _ => true) (mkServerInfo (fun _ => Raise OSError))
                "" TorFalse false None _ (or_intror (or_introl eq_refl)))
      as (_ & -> & _). exact Hqs.
  - exists []. rewrite app_nil_r.
    destruct (lifecycle_keeps w 0%nat (fun _ => true)
                (mkServerInfo (fun _ => Raise OSError))
                "" TorFalse false None _ (or_introl eq_refl))
      as (_ & -> & _). exact Hqs.
Qed.

(** X19: channels are never removed.  Whatever callers, protocols and
    servers do to a client afterwards (connect, calls, delivered messages,
    lost connections, close), the channels a method has stay channels of
    that method, in the same order and ahead of any channel added later. *)
Theorem subscriptions_only_grow (ops : list Op) (w : World) (method : string)
    (qs : list ref) :
  subscriptions (self w) !! method = Some qs ->
  exists more,
    subscriptions (self (run_ops ops w)) !! method = Some (qs ++ more).
Proof.
  unfold run_ops. revert w qs.
  induction ops as [|o ops IH]; intros w qs Hqs; simpl.
  - exists []. rewrite app_nil_r. exact Hqs.
  - destruct (perform_subscriptions_grow o w method qs Hqs) as [more1 H1].
    destruct (IH _ _ H1) as [more2 H2].
    exists (more1 ++ more2). rewrite app_assoc. exact H2.
Qed.

Lemma subscriptions_only_grow_witness :
  exists more,
    subscriptions
      (self (run_ops [OpClose; OpCall (CallSubscribe "server.peers.subscribe" []);
                      OpLost 0%nat]
               (snd (subscribe wire_send "server.peers.subscribe" []
                       connected_world))))
      !! "server.peers.subscribe"%string
    = Some ([2%nat] ++ more).
Proof.
  exact (subscriptions_only_grow
           [OpClose; OpCall (CallSubscribe "server.peers.subscribe" []);
            OpLost 0%nat]
           (snd (subscribe wire_send "server.peers.subscribe" []
                   connected_world))
           "server.peers.subscribe" [2%nat] eq_refl).
Defined.

Lemma perform_keeps_settled (o : Op) (w : World) (fut : ref) (s : fut_state) :
  (fut < fresh w)%nat ->
  futures w !! fut = Some s ->
  s <> Pending ->
  (fut < fresh (perform o w))%nat /\ futures (perform o w) !! fut = Some s.
Proof.
  intros Hlt Hs Hne. destruct o as [net info code tor dcv proxy|c|msg|p|]; simpl.
  - destruct (connect_untouched net info code tor dcv proxy w)
      as (_ & _ & -> & Hfresh & _). split; [lia | exact Hs].
  - pose proof (invoke_wire_send c w) as Hc. cbv zeta in Hc.
    destruct (call_ok c); [|rewrite Hc; auto].
    destruct Hc as (_ & _ & req & f & _ & _ & _ & -> & Hf).
    split; [lia|]. rewrite lookup_insert_ne by lia. exact Hs.
  - destruct (got_response_effect msg w) as [Hsame|Hpop].
    + destruct Hsame as (_ & _ & -> & Hfresh & _). split; [lia | exact Hs].
    + destruct Hpop as (k & req & rv & _ & _ & _ & -> & _ & _).
      split; [exact Hlt|].
      destruct (got_response_cases msg w)
        as [[_ ->]|(k' & req' & rv' & _ & _ & _ & [->|(s' & Hpend & ->)])];
        try exact Hs.
      rewrite lookup_insert_ne; [exact Hs|]. intros ->. congruence.
  - destruct (connection_lost_untouched p w) as (_ & _ & -> & Hfresh & _).
    split; [lia | exact Hs].
  - destruct (close_untouched w) as (_ & _ & -> & Hfresh & _).
    split; [lia | exact Hs].
Qed.

(** X20: a future is resolved at most once.  Once a future holds a result
    or an exception (or was cancelled), nothing the client does afterwards,
    over any history, changes it: a second response under the same id, a
    later request, a reconnect or a close all leave it as it is. *)
Theorem resolved_future_is_final (ops : list Op) (w : World) (fut : ref)
    (s : fut_state) :
  (fut < fresh w)%nat ->
  futures w !! fut = Some s ->
  s <> Pending ->
  futures (run_ops ops w) !! fut = Some s.
Proof.
  unfold run_ops. revert w.
  induction ops as [|o ops IH]; intros w Hlt Hs Hne; simpl; [exact Hs|].
  destruct (perform_keeps_settled o w fut s Hlt Hs Hne) as [Hlt' Hs'].
  apply IH; assumption.
Qed.

Lemma resolved_future_is_final_witness :
  futures (run_ops [OpDeliver result7; OpDeliver error7;
                    OpCall (CallRPC "server.version" []); OpClose]
             (snd (_got_response result7 pending7)))
    !! 1%nat
  = Some (Fulfilled (JInt 42)).
Proof.
  refine (resolved_future_is_final
            [OpDeliver result7; OpDeliver error7;
             OpCall (CallRPC "server.version" []); OpClose]
            (snd (_got_response result7 pending7)) 1%nat
            (Fulfilled (JInt 42)) _ _ _).
  - vm_compute. lia.
  - reflexivity.
  - discriminate.
Defined.

Lemma reachable_sent_ids_increasing_witness :
  let w :=
    run_ops [OpConnect (fun _ => true) tls_server "s" TorFalse false None;
             OpCall (CallRPC "server.version" []);
             OpDeliver {[ "id" := JInt 2; "result" := JStr "1.4" ]};
             OpClose;
             OpCall (CallRPC "server.banner" []);
             OpConnect (fun _ => true) tls_server "s" TorFalse false None;
             OpCall (CallSubscribe "server.peers.subscribe" [])]
      init_world in
  sent_ids (trace w) = [2; 4]
  /\ StronglySorted Z.lt (sent_ids (trace w))
  /\ Forall (fun i => 2 <= i) (sent_ids (trace w)).
Proof.
  split; [reflexivity|].
  exact (reachable_sent_ids_increasing _ (ex_intro _ _ eq_refl)).
Defined.

(** ** The keep-alive coroutine *)

(** X22: a keep-alive coroutine that reaches its loop test when no
    protocol is installed returns without sending or logging anything; in
    particular right after [close()], and right after the installed
    protocol reported its connection lost. *)
Theorem keepalive_ends_without_protocol
    (send_data : ref -> Request -> M unit) (w : World) (p : ref) :
  (protocol (self w) = None -> _keepalive send_data KaLoop w = (KaReturned, w))
  /\ _keepalive send_data KaLoop (snd (close w)) = (KaReturned, snd (close w))
  /\ (protocol (self w) = Some p ->
      _keepalive send_data KaLoop (snd (_connection_lost p w))
      = (KaReturned, snd (_connection_lost p w))).
Proof.
  assert (Hnone : forall w0, protocol (self w0) = None ->
            _keepalive send_data KaLoop w0 = (KaReturned, w0)).
  { intros w0 H0. unfold _keepalive. rewrite H0. reflexivity. }
  split; [apply Hnone|]. split.
  - apply Hnone.
    destruct w as [[[cur|] n infl subs [t|] info code] futs fr tr];
      reflexivity.
  - intros Hp. apply Hnone. unfold _connection_lost. step. rewrite Hp.
    rewrite bool_decide_eq_false_2 by (intros H; apply H; reflexivity).
    destruct (ka_task (self w)); reflexivity.
Qed.

(** X23: one round of the keep-alive coroutine on a connected client.  From
    its loop test it sends one [server.version] request without parameters,
    under the next id, to the protocol installed at that moment, and
    suspends on the request's future; it stays suspended while that future
    is pending.  Resumed after the response was dispatched, it logs
    ["Server version: " + vers] and goes to sleep when the result is a
    string; when the result is anything else (a list, a number, [None]) the
    concatenation raises [TypeError] and the coroutine ends without logging;
    when the response carries an [error] key it ends with
    [ElectrumErrorResponse]. *)
Theorem keepalive_round (msg : message) (w : World) (p : ref) :
  protocol (self w) = Some p ->
  msg !! "id" = Some (JInt (next_id (self w) + 1)) ->
  msg !! "method" = None ->
  let req := mkRequest (next_id (self w) + 1) "server.version" [] in
  let w1 := snd (_keepalive wire_send KaLoop w) in
  let w2 := snd (_got_response msg w1) in
  let r := _keepalive wire_send (KaAwaitVersion (fresh w)) w2 in
  fst (_keepalive wire_send KaLoop w) = KaAwaitVersion (fresh w)
  /\ new_events w w1 = [EvSend p req]
  /\ _keepalive wire_send (KaAwaitVersion (fresh w)) w1
     = (KaAwaitVersion (fresh w), w1)
  /\ fst r
     = match msg !! "error" with
       | Some err => KaRaised (ElectrumErrorResponse err req)
       | None =>
           match msg_get msg "result" with
           | JStr _ => KaSleep
           | _ => KaRaised (TypeError "can only concatenate str to str")
           end
       end
  /\ new_events w2 (snd r)
     = match msg !! "error", msg_get msg "result" with
       | None, JStr s =>
           [EvLog DEBUG (String.append "Server version: " s) LogNothing]
       | _, _ => []
       end.
Proof.
  intros Hp Hid Hmeth req w1 w2 r. subst r w2 w1.
  assert (Hloop : _keepalive wire_send KaLoop w
                  = (KaAwaitVersion (fresh w),
                     snd (RPC wire_send "server.version" [] w))).
  { unfold _keepalive. rewrite Hp.
    rewrite (rpc_wire "server.version" [] w p Hp eq_refl). reflexivity. }
  rewrite Hloop. cbn [fst snd].
  rewrite (rpc_wire "server.version" [] w p Hp eq_refl). cbn [fst snd].
  split; [reflexivity|]. split.
  { unfold new_events. simpl. rewrite drop_app_length. reflexivity. }
  split.
  { unfold _keepalive. simpl. rewrite lookup_insert_eq. reflexivity. }
  erewrite got_response_resolves;
    [ | exact Hid | exact Hmeth
      | simpl; apply lookup_insert_eq | simpl; apply lookup_insert_eq ].
  cbn [fst snd]. unfold _keepalive, new_events. simpl.
  rewrite lookup_insert_eq.
  destruct (msg !! "error") as [err|]; simpl.
  - rewrite drop_all. split; reflexivity.
  - destruct (msg_get msg "result"); simpl;
      rewrite ?drop_all, ?drop_app_length; split; reflexivity.
Qed.

Lemma keepalive_round_witness :
  fst (_keepalive wire_send (KaAwaitVersion 2%nat)
         (snd (_got_response
                 {[ "id" := JInt 2;
                    "result" := JArr [JStr "ElectrumX 1.16"; JStr "1.4"] ]}
                 (snd (_keepalive wire_send KaLoop connected_world)))))
  = KaRaised (TypeError "can only concatenate str to str").
Proof.
  exact (proj1 (proj2 (proj2 (proj2
           (keepalive_round
              {[ "id" := JInt 2;
                 "result" := JArr [JStr "ElectrumX 1.16"; JStr "1.4"] ]}
              connected_world 0%nat eq_refl eq_refl eq_refl))))).
Defined.

(** ** The registry's keys *)

(** X24: over any history of a client, every entry of [inflight] sits
    under the id its request carries, ids in use lie between 2 and
    [next_id], no two entries share a future, and the id the next request
    will take is free: a new request never overwrites an outstanding one. *)
Theorem inflight_keys_match_requests (w : World) :
  reachable w ->
  (forall k req fut,
     inflight (self w) !! k = Some (req, fut) ->
     req_id req = k /\ 2 <= k <= next_id (self w))
  /\ (forall k1 k2 req1 req2 fut,
        inflight (self w) !! k1 = Some (req1, fut) ->
        inflight (self w) !! k2 = Some (req2, fut) ->
        k1 = k2)
  /\ inflight (self w) !! (next_id (self w) + 1) = None.
Proof.
  intros Hreach. destruct (reachable_consistent w Hreach) as [H1 H2 H3 _ _ _].
  split; [|split].
  - intros k req fut Hk. destruct (H2 k req fut Hk) as (Hreq & Hrange & _).
    auto.
  - exact H3.
  - destruct (inflight (self w) !! (next_id (self w) + 1)) as [[req fut]|] eqn:Hk;
      [|reflexivity].
    destruct (H2 _ _ _ Hk) as (_ & Hrange & _). lia.
Qed.

Lemma inflight_keys_match_requests_witness :
  let w :=
    run_ops [OpCall (CallRPC "server.version" []);
             OpConnect (fun _ => true) tls_server "s" TorFalse false None;
             OpCall (CallRPC "server.banner" []);
             OpDeliver {[ "id" := JInt 2; "result" := JStr "1.4" ]}]
      init_world in
  inflight (self w) !! (next_id (self w) + 1) = None.
Proof.
  exact (proj2 (proj2 (inflight_keys_match_requests _ (ex_intro _ _ eq_refl)))).
Defined.
